(** * FTL: gravity list/group resolution engine and block-page detector

    A shallow embedding of [src/external_blocked.c] and
    [src/database/gravity-db.c].  File-level C variables become fields of an
    explicit state record, every C function becomes a computation in a small
    state-and-crash monad, and a NULL-pointer dereference is the [Crash]
    outcome. *)

From stdpp Require Import base option list strings.
From Stdlib Require Import ZArith Lia Ascii DecimalString DecimalZ.

Local Open Scope string_scope.
Local Open Scope Z_scope.
Local Open Scope list_scope.

(** ** Computations over explicit state that may abort the process *)

Inductive outcome (S A : Type) : Type :=
| Done (a : A) (s : S)
| Crash.
Arguments Done {S A} a s.
Arguments Crash {S A}.

Definition comp (S A : Type) : Type := S -> outcome S A.

Definition ret {S A} (a : A) : comp S A := fun s => Done a s.

Definition bind {S A B} (c : comp S A) (k : A -> comp S B) : comp S B :=
  fun s => match c s with
           | Done a s' => k a s'
           | Crash => Crash
           end.

Definition crash {S A} : comp S A := fun _ => Crash.
Definition modify {S} (f : S -> S) : comp S unit := fun s => Done tt (f s).

Declare Scope comp_scope.
Delimit Scope comp_scope with comp.
Notation "x <- c ;; k" := (bind c (fun x => k))
  (at level 100, c at next level, right associativity) : comp_scope.
Notation "c ;;; k" := (bind c (fun _ => k))
  (at level 100, right associativity) : comp_scope.

(** * The block-page detector, [external_blocked.c] *)

Module ExternalBlocked.

(** [#define maxIPs 12] *)
Definition maxIPs : nat := 12.

(** The address families handed to [inet_pton]. *)
Inductive af := AF_INET | AF_INET6.

(** [char** blocked_IP_v4] and [char** blocked_IP_v6]: a NULL pointer is
    [None], an allocated array is the list of its slots, a NULL slot is
    [None].  [heap] scripts the allocator: the outcomes of the coming
    allocation requests in order; once it is used up every request
    succeeds. *)
Record registry := {
  blocked_IP_v4 : option (list (option string));
  blocked_IP_v6 : option (list (option string));
  heap : list bool
}.

Definition set_v4 (l : option (list (option string))) (s : registry) : registry :=
  {| blocked_IP_v4 := l; blocked_IP_v6 := blocked_IP_v6 s; heap := heap s |}.
Definition set_v6 (l : option (list (option string))) (s : registry) : registry :=
  {| blocked_IP_v4 := blocked_IP_v4 s; blocked_IP_v6 := l; heap := heap s |}.
Definition set_heap (h : list bool) (s : registry) : registry :=
  {| blocked_IP_v4 := blocked_IP_v4 s; blocked_IP_v6 := blocked_IP_v6 s; heap := h |}.

(** The [list] local of both functions points into one of the two globals. *)
Inductive which := V4 | V6.

#[global] Instance which_eq_dec : EqDecision which.
Proof. solve_decision. Defined.

Definition deref (l : which) (s : registry) : option (list (option string)) :=
  match l with V4 => blocked_IP_v4 s | V6 => blocked_IP_v6 s end.

Definition assign (l : which) (a : list (option string)) (s : registry) : registry :=
  match l with V4 => set_v4 (Some a) s | V6 => set_v6 (Some a) s end.

(** One allocation request. *)
Definition alloc : comp registry bool := fun s =>
  match heap s with
  | [] => Done true s
  | b :: h => Done b (set_heap h s)
  end.

(** [calloc] of [maxIPs] pointers, all NULL. *)
Definition calloc_list : comp registry (option (list (option string))) :=
  (ok <- alloc ;;
   ret (if ok then Some (replicate maxIPs None) else None))%comp.

(** [strdup(addr)] *)
Definition strdup (addr : string) : comp registry (option string) :=
  (ok <- alloc ;; ret (if ok then Some addr else None))%comp.

Section WithLibc.

(** [inet_pton] of the C library: 1 when [src] is a valid address of the
    family. *)
Variable inet_pton : af -> string -> Z.

(** The loop of [add_blocked_IP], lines 83-93: [n] iterations are left,
    [i] is the loop counter. *)
Fixpoint add_loop (addr : string) (l : which) (n i : nat) : comp registry bool :=
  match n with
  | O => ret false
  | S n' => fun s =>
      match deref l s with
      | None => Crash
      | Some a =>
          match a !! i with
          | None => Crash
          | Some None =>
              (p <- strdup addr ;;
               modify (fun s' => assign l (<[i := p]> a) s') ;;;
               ret (bool_decide (p <> None)))%comp s
          | Some (Some _) => add_loop addr l n' (S i) s
          end
      end
  end.

Definition add_blocked_IP (addr : string) (type : Z) : comp registry bool :=
  if type =? 4 then
    if negb (inet_pton AF_INET addr =? 1) then ret false
    else add_loop addr V4 maxIPs 0
  else if type =? 6 then
    if negb (inet_pton AF_INET6 addr =? 1) then ret false
    else add_loop addr V6 maxIPs 0
  else ret false.

(** The loop of [is_blocked_IP], lines 115-127. *)
Fixpoint scan_loop (addr : string) (l : which) (n i : nat) : comp registry bool :=
  match n with
  | O => ret false
  | S n' => fun s =>
      match deref l s with
      | None => Crash
      | Some a =>
          match a !! i with
          | None => Crash
          | Some None => Done false s
          | Some (Some e) =>
              if String.eqb addr e then Done true s
              else scan_loop addr l n' (S i) s
          end
      end
  end.

(** The [switch] of [is_blocked_IP]: [case 4] ends in [break]; [case 6]
    has none, so control runs on into the statements of [default]. *)
Inductive switch_exit := Break (l : which) | Return (b : bool).

Definition is_blocked_IP_default : switch_exit := Return false.

Definition is_blocked_IP_switch (type : Z) : switch_exit :=
  if type =? 4 then Break V4
  else if type =? 6 then
    let list := V6 in is_blocked_IP_default
  else is_blocked_IP_default.

Definition is_blocked_IP (addr : option string) (type : Z) : comp registry bool :=
  match addr with
  | None => ret false
  | Some a =>
      match is_blocked_IP_switch type with
      | Return b => ret b
      | Break l => scan_loop a l maxIPs 0
      end
  end.

(** The two [calloc] calls that open [init_blocked_IP]. *)
Definition allocate_lists : comp registry unit :=
  (v4 <- calloc_list ;; modify (set_v4 v4) ;;;
   v6 <- calloc_list ;; modify (set_v6 v6))%comp.

Definition init_blocked_IP : comp registry unit :=
  (allocate_lists ;;;
   add_blocked_IP "0.0.0.0" 4 ;;;
   add_blocked_IP "::" 6 ;;;
   add_blocked_IP "146.112.61.104" 4 ;;;
   add_blocked_IP "::ffff:146.112.61.104" 6 ;;;
   add_blocked_IP "146.112.61.105" 4 ;;;
   add_blocked_IP "::ffff:146.112.61.105" 6 ;;;
   add_blocked_IP "146.112.61.106" 4 ;;;
   add_blocked_IP "::ffff:146.112.61.106" 6 ;;;
   add_blocked_IP "146.112.61.107" 4 ;;;
   add_blocked_IP "::ffff:146.112.61.107" 6 ;;;
   add_blocked_IP "146.112.61.108" 4 ;;;
   add_blocked_IP "::ffff:146.112.61.108" 6 ;;;
   add_blocked_IP "146.112.61.109" 4 ;;;
   add_blocked_IP "::ffff:146.112.61.109" 6 ;;;
   add_blocked_IP "146.112.61.110" 4 ;;;
   add_blocked_IP "::ffff:146.112.61.110" 6 ;;;
   ret tt)%comp.

(** The array whose first slots hold the addresses [r], in order, and
    whose remaining slots are NULL. *)
Definition slots (r : list string) : list (option string) :=
  (Some <$> r) ++ replicate (maxIPs - List.length r) None.

(** The index of the first NULL slot. *)
Fixpoint first_empty (a : list (option string)) : option nat :=
  match a with
  | [] => None
  | None :: _ => Some O
  | Some _ :: r => S <$> first_empty r
  end.

(** The list a call for family [type] works on. *)
Definition family (type : Z) : option which :=
  if type =? 4 then Some V4 else if type =? 6 then Some V6 else None.

(** The address a call appends to the record of family [l]: the call must
    be for that family and must have succeeded. *)
Definition registers (l : which) (type : Z) (b : bool) (addr : string) : list string :=
  match family type with
  | Some l' => if b && bool_decide (l = l') then [addr] else []
  | None => []
  end.

(** [reaches r4 r6 s]: the process got to [s] by allocating the two
    arrays and calling [add_blocked_IP] any number of times; [r4] and [r6]
    are the addresses of the calls that returned true, per family and in
    call order. *)
Inductive reaches : list string -> list string -> registry -> Prop :=
| reaches_allocated s0 s :
    allocate_lists s0 = Done tt s ->
    reaches [] [] s
| reaches_add r4 r6 s addr type b s' :
    reaches r4 r6 s ->
    add_blocked_IP addr type s = Done b s' ->
    reaches (r4 ++ registers V4 type b addr) (r6 ++ registers V6 type b addr) s'.

Definition registered (l : which) (r4 r6 : list string) : list string :=
  match l with V4 => r4 | V6 => r6 end.

End WithLibc.

(** The state before [init_blocked_IP]: both pointers NULL. *)
Definition unallocated (h : list bool) : registry :=
  {| blocked_IP_v4 := None; blocked_IP_v6 := None; heap := h |}.

(** A stand-in for [inet_pton] used to run the code on concrete inputs: it
    accepts the textual forms that [init_blocked_IP] registers and a few
    more, and rejects everything else. *)
Definition chars_in (allowed : string) (s : string) : bool :=
  forallb (fun c => existsb (Ascii.eqb c) (String.list_ascii_of_string allowed))
          (String.list_ascii_of_string s).

Definition inet_pton_text (f : af) (src : string) : Z :=
  match f with
  | AF_INET =>
      if chars_in "0123456789." src && negb (String.eqb src EmptyString) then 1 else 0
  | AF_INET6 =>
      if chars_in "0123456789abcdefABCDEF:." src && (2 <=? String.length src)%nat
      then 1 else 0
  end.

(** The state a registration leaves behind when the list of family [l]
    holds [r] and has room. *)
Definition fill (addr : string) (l : which) (r : list string) : comp registry bool :=
  (p <- strdup addr ;;
   modify (fun s' => assign l (<[List.length r := p]> (slots r)) s') ;;;
   ret (bool_decide (p <> None)))%comp.

(** The list of family [l] holds exactly [r]: it is either unallocated,
    and then nothing was registered, or the array [slots r]. *)
Definition shaped (l : which) (r : list string) (s : registry) : Prop :=
  (List.length r <= maxIPs)%nat /\
  match deref l s with
  | Some a => a = slots r
  | None => r = []
  end.

(** The registry after allocation, and after one successful registration
    for IPv6. *)
Definition allocated : registry :=
  {| blocked_IP_v4 := Some (slots []); blocked_IP_v6 := Some (slots []); heap := [] |}.

Definition one_registered_v6 : registry :=
  {| blocked_IP_v4 := Some (slots []); blocked_IP_v6 := Some (slots ["::"]);
     heap := [] |}.

(** The registry [init_blocked_IP] builds when every allocation succeeds. *)
Definition seeded : registry :=
  {| blocked_IP_v4 :=
       Some (slots ["0.0.0.0"; "146.112.61.104"; "146.112.61.105"; "146.112.61.106";
                    "146.112.61.107"; "146.112.61.108"; "146.112.61.109";
                    "146.112.61.110"]);
     blocked_IP_v6 :=
       Some (slots ["::"; "::ffff:146.112.61.104"; "::ffff:146.112.61.105";
                    "::ffff:146.112.61.106"; "::ffff:146.112.61.107";
                    "::ffff:146.112.61.108"; "::ffff:146.112.61.109";
                    "::ffff:146.112.61.110"]);
     heap := [] |}.

End ExternalBlocked.

(** * The gravity database routines, [database/gravity-db.c] *)

Module GravityDB.

(** ** The storage engine

    Modelled from the spec: the storage engine of section 6, an external
    collaborator that is not among the sources.  It is embedded as a small
    executable engine offering the calls the C file makes (open, exec,
    prepare, bind, step, column access, reset, clear-bindings, finalize,
    close, busy-timeout) over an explicit database with the persisted
    layout of section 6.  Every call is recorded in a trace, and a script
    of faults lets any call that returns a result code fail. *)

(** Modelled from the spec: the result codes of the engine ([step] gives
    row, done, busy or an error). *)
Inductive rc :=
| SQLITE_OK | SQLITE_ERROR | SQLITE_BUSY | SQLITE_NOMEM | SQLITE_CANTOPEN
| SQLITE_MISUSE | SQLITE_RANGE | SQLITE_ROW | SQLITE_DONE.

#[global] Instance rc_eq_dec : EqDecision rc.
Proof. solve_decision. Defined.

Inductive fault := FAULT_ERROR | FAULT_BUSY | FAULT_NOMEM | FAULT_CANTOPEN | FAULT_MISUSE.

Definition rc_of_fault (f : fault) : rc :=
  match f with
  | FAULT_ERROR => SQLITE_ERROR
  | FAULT_BUSY => SQLITE_BUSY
  | FAULT_NOMEM => SQLITE_NOMEM
  | FAULT_CANTOPEN => SQLITE_CANTOPEN
  | FAULT_MISUSE => SQLITE_MISUSE
  end.

(** [enum { REGEX_BLACKLIST, REGEX_WHITELIST }] of the regex subsystem. *)
Inductive regex_type := REGEX_BLACKLIST | REGEX_WHITELIST.

(** The SQL texts the C file builds, one constructor per format string;
    the arguments are the strings spliced in at [%s]. *)
Inductive sql :=
| SqlTempStore
    (* PRAGMA temp_store = MEMORY *)
| SqlAudit
    (* SELECT EXISTS(SELECT domain, CASE WHEN substr(domain, 1, 1) = '*'
       THEN '*' || substr(:input, - length(domain) + 1) ELSE :input END matcher
       FROM domain_audit WHERE matcher = domain); *)
| SqlClientCount (ip : string)
    (* SELECT COUNT( * ) FROM client WHERE subnet_match(ip,'%s') = 1; *)
| SqlClientGroups (ip : string)
    (* SELECT GROUP_CONCAT(group_id) FROM client_by_group WHERE client_id =
       (SELECT id FROM client WHERE subnet_match(ip,'%s') = 1 LIMIT 1); *)
| SqlExists (table groups : string)
    (* SELECT EXISTS(SELECT domain from %s WHERE domain = ? AND group_id IN (%s)); *)
| SqlTable (table : string)
    (* SELECT domain, id FROM %s GROUP BY id *)
| SqlCountDistinct (table : string)
    (* SELECT COUNT(DISTINCT domain) FROM %s *)
| SqlGravityCount.
    (* SELECT value FROM info WHERE property = 'gravity_count'; *)

Inductive value := VNull | VInt (z : Z) | VText (t : string).

(** A row of one of the [vw_*] views. *)
Record entry := { e_id : Z; e_domain : string; e_group : Z }.

(** Modelled from the spec: the persisted layout of section 6 (views with
    [domain] and [group_id], [client] and [client_by_group], the
    [gravity_count] entry of [info], [domain_audit]).  [subnet_match] is the custom
    SQL function registered with the engine: its first argument is the
    [ip] column of a [client] row, its second the address of the client. *)
Record database := {
  vw_gravity : list entry;
  vw_blacklist : list entry;
  vw_whitelist : list entry;
  vw_regex_blacklist : list entry;
  vw_regex_whitelist : list entry;
  client : list (Z * string);
  client_by_group : list (Z * Z);
  gravity_count : option Z;
  domain_audit : list string;
  subnet_match : string -> string -> bool
}.

Definition view (d : database) (name : string) : option (list entry) :=
  if String.eqb name "vw_gravity" then Some (vw_gravity d)
  else if String.eqb name "vw_blacklist" then Some (vw_blacklist d)
  else if String.eqb name "vw_whitelist" then Some (vw_whitelist d)
  else if String.eqb name "vw_regex_blacklist" then Some (vw_regex_blacklist d)
  else if String.eqb name "vw_regex_whitelist" then Some (vw_regex_whitelist d)
  else None.

(** *** Integer lists in SQL text: [GROUP_CONCAT] and [IN (...)] *)

Definition show_int (z : Z) : string :=
  DecimalString.NilZero.string_of_int (Z.to_int z).

Definition read_int (s : string) : option Z :=
  Z.of_int <$> DecimalString.NilZero.int_of_string s.

Fixpoint concat_comma (l : list string) : string :=
  match l with
  | [] => EmptyString
  | [x] => x
  | x :: r => x +:+ "," +:+ concat_comma r
  end.

Fixpoint split_comma (s : string) : list string :=
  match s with
  | EmptyString => [EmptyString]
  | String c r =>
      if Ascii.eqb c ","%char then EmptyString :: split_comma r
      else match split_comma r with
           | t :: ts => String c t :: ts
           | [] => [String c EmptyString]
           end
  end.

(** The integers of an [IN (%s)] list; [None] when the text is not a
    comma-separated list of integer literals.  The empty list is accepted,
    as SQLite does. *)
Definition parse_groups (groups : string) : option (list Z) :=
  if String.eqb groups EmptyString then Some []
  else mapM read_int (split_comma groups).

(** *** SQL string functions used by the audit query *)

Fixpoint string_drop (n : nat) (s : string) : string :=
  match n, s with
  | O, _ => s
  | S n', String _ r => string_drop n' r
  | S _, EmptyString => EmptyString
  end.

(** [substr(X, Y)] for [Y <= 0]: the last [-Y] characters of [X], all of
    [X] when it is shorter (and when [Y] is 0). *)
Definition substr_from_right (x : string) (y : Z) : string :=
  if y =? 0 then x
  else string_drop (String.length x - Z.to_nat (- y)) x.

(** [substr(domain, 1, 1) = '*'] *)
Definition starts_with_star (domain : string) : bool :=
  match domain with
  | String c _ => Ascii.eqb c "*"%char
  | EmptyString => false
  end.

(** The [matcher] column of the audit query for one row of
    [domain_audit], compared against the row's [domain]. *)
Definition audit_row_matches (input domain : string) : bool :=
  let matcher :=
    if starts_with_star domain
    then "*" +:+ substr_from_right input (- Z.of_nat (String.length domain) + 1)
    else input in
  String.eqb matcher domain.

(** *** Result sets *)

Definition Z_of_bool (b : bool) : Z := if b then 1 else 0.

Definition in_groups (gs : list Z) (g : Z) : bool := existsb (Z.eqb g) gs.

Fixpoint distinct (l : list string) : list string :=
  match l with
  | [] => []
  | x :: r => x :: filter (fun y => x <> y) (distinct r)
  end.

Fixpoint group_by_id (l : list entry) : list entry :=
  match l with
  | [] => []
  | x :: r => x :: filter (fun y => e_id x <> e_id y) (group_by_id r)
  end.

Definition matching_clients (d : database) (ip : string) : list (Z * string) :=
  filter (fun c => subnet_match d (snd c) ip = true) (client d).

(** Modelled from the spec: what the engine answers to the queries of the
    C file, that is the rows a statement produces when run to completion
    with the domain parameter bound to [arg] ([None]: the parameter is
    NULL). *)
Definition run_query (d : database) (q : sql) (arg : option string) : list (list value) :=
  match q with
  | SqlTempStore => []
  | SqlAudit =>
      [[VInt (Z_of_bool
         match arg with
         | Some input => existsb (audit_row_matches input) (domain_audit d)
         | None => false
         end)]]
  | SqlClientCount ip =>
      [[VInt (Z.of_nat (length (matching_clients d ip)))]]
  | SqlClientGroups ip =>
      match matching_clients d ip with
      | [] => [[VNull]]
      | c :: _ =>
          match filter (fun cg => fst cg = fst c) (client_by_group d) with
          | [] => [[VNull]]
          | cgs => [[VText (concat_comma (map (fun cg => show_int (snd cg)) cgs))]]
          end
      end
  | SqlExists table groups =>
      [[VInt (Z_of_bool
         match arg, view d table, parse_groups groups with
         | Some dom, Some rows, Some gs =>
             existsb (fun r => String.eqb (e_domain r) dom && in_groups gs (e_group r)) rows
         | _, _, _ => false
         end)]]
  | SqlTable table =>
      match view d table with
      | Some rows => map (fun r => [VText (e_domain r); VInt (e_id r)]) (group_by_id rows)
      | None => []
      end
  | SqlCountDistinct table =>
      match view d table with
      | Some rows => [[VInt (Z.of_nat (length (distinct (map e_domain rows))))]]
      | None => []
      end
  | SqlGravityCount =>
      match gravity_count d with
      | Some n => [[VInt n]]
      | None => []
      end
  end.

(** Modelled from the spec: whether the engine accepts the text in
    [sqlite3_prepare_v2]. *)
Definition compiles (d : database) (q : sql) : bool :=
  match q with
  | SqlExists table groups => bool_decide (is_Some (view d table)) && bool_decide (is_Some (parse_groups groups))
  | SqlTable table | SqlCountDistinct table => bool_decide (is_Some (view d table))
  | _ => true
  end.

Definition has_parameter (q : sql) : bool :=
  match q with
  | SqlAudit | SqlExists _ _ => true
  | _ => false
  end.

(** A prepared statement: its text, the value bound to its parameter, the
    rows still to be delivered ([None] while the statement is not being
    stepped) and the row the last step delivered. *)
Record stmt := {
  text : sql;
  bound : option string;
  pending : option (list (list value));
  current : option (list value)
}.

Definition fresh_stmt (q : sql) : stmt :=
  {| text := q; bound := None; pending := None; current := None |}.

(** The calls made to the engine and to the regex subsystem, newest
    first.  A connection or statement handle is a number, NULL is
    [None]. *)
Inductive event :=
| EvOpen (r : rc)
| EvExec (c : option nat) (q : sql) (r : rc)
| EvPrepare (c : option nat) (q : sql) (r : rc)
| EvBindText (h : option nat) (t : string) (r : rc)
| EvStep (h : option nat) (r : rc)
| EvColumnInt (h : option nat) (v : Z)
| EvColumnText (h : option nat) (v : option string)
| EvReset (h : option nat)
| EvClearBindings (h : option nat)
| EvFinalize (h : option nat)
| EvClose (c : option nat)
| EvBusyTimeout (c : option nat) (ms : Z)
| EvMatchRegex (domain : string) (clientID : nat) (t : regex_type) (r : Z).

Record engine := {
  db : database;
  conns : list bool;
  stmts : list (option stmt);
  faults : list (option fault);
  trace : list event
}.

Definition set_conns (x : list bool) (e : engine) : engine :=
  {| db := db e; conns := x; stmts := stmts e; faults := faults e; trace := trace e |}.
Definition set_stmts (x : list (option stmt)) (e : engine) : engine :=
  {| db := db e; conns := conns e; stmts := x; faults := faults e; trace := trace e |}.
Definition set_faults (x : list (option fault)) (e : engine) : engine :=
  {| db := db e; conns := conns e; stmts := stmts e; faults := x; trace := trace e |}.
Definition set_trace (x : list event) (e : engine) : engine :=
  {| db := db e; conns := conns e; stmts := stmts e; faults := faults e; trace := x |}.

(** ** The process

    [vars] holds the file-level variables of [gravity-db.c], [sys] what
    the code reads from its surroundings, [sqlite] the engine.  Memory
    allocation in this file ([asprintf], [strdup], the vectors) is taken
    to succeed, so the branches for a failed [asprintf] are left out; a
    clientID is a slot index and so a natural number. *)

Abbreviation vec := (list (option nat)).

Record globals := {
  whitelist_stmt : option vec;
  gravity_stmt : option vec;
  blacklist_stmt : option vec;
  gravity_db : option nat;
  table_stmt : option nat;
  auditlist_stmt : option nat;
  gravityDB_opened : bool;
  main_process : Z;
  this_process : Z
}.

Definition set_whitelist_stmt (x : option vec) (g : globals) : globals :=
  {| whitelist_stmt := x; gravity_stmt := gravity_stmt g; blacklist_stmt := blacklist_stmt g;
     gravity_db := gravity_db g; table_stmt := table_stmt g; auditlist_stmt := auditlist_stmt g;
     gravityDB_opened := gravityDB_opened g; main_process := main_process g;
     this_process := this_process g |}.
Definition set_gravity_stmt (x : option vec) (g : globals) : globals :=
  {| whitelist_stmt := whitelist_stmt g; gravity_stmt := x; blacklist_stmt := blacklist_stmt g;
     gravity_db := gravity_db g; table_stmt := table_stmt g; auditlist_stmt := auditlist_stmt g;
     gravityDB_opened := gravityDB_opened g; main_process := main_process g;
     this_process := this_process g |}.
Definition set_blacklist_stmt (x : option vec) (g : globals) : globals :=
  {| whitelist_stmt := whitelist_stmt g; gravity_stmt := gravity_stmt g; blacklist_stmt := x;
     gravity_db := gravity_db g; table_stmt := table_stmt g; auditlist_stmt := auditlist_stmt g;
     gravityDB_opened := gravityDB_opened g; main_process := main_process g;
     this_process := this_process g |}.
Definition set_gravity_db (x : option nat) (g : globals) : globals :=
  {| whitelist_stmt := whitelist_stmt g; gravity_stmt := gravity_stmt g; blacklist_stmt := blacklist_stmt g;
     gravity_db := x; table_stmt := table_stmt g; auditlist_stmt := auditlist_stmt g;
     gravityDB_opened := gravityDB_opened g; main_process := main_process g;
     this_process := this_process g |}.
Definition set_table_stmt (x : option nat) (g : globals) : globals :=
  {| whitelist_stmt := whitelist_stmt g; gravity_stmt := gravity_stmt g; blacklist_stmt := blacklist_stmt g;
     gravity_db := gravity_db g; table_stmt := x; auditlist_stmt := auditlist_stmt g;
     gravityDB_opened := gravityDB_opened g; main_process := main_process g;
     this_process := this_process g |}.
Definition set_auditlist_stmt (x : option nat) (g : globals) : globals :=
  {| whitelist_stmt := whitelist_stmt g; gravity_stmt := gravity_stmt g; blacklist_stmt := blacklist_stmt g;
     gravity_db := gravity_db g; table_stmt := table_stmt g; auditlist_stmt := x;
     gravityDB_opened := gravityDB_opened g; main_process := main_process g;
     this_process := this_process g |}.
Definition set_gravityDB_opened (x : bool) (g : globals) : globals :=
  {| whitelist_stmt := whitelist_stmt g; gravity_stmt := gravity_stmt g; blacklist_stmt := blacklist_stmt g;
     gravity_db := gravity_db g; table_stmt := table_stmt g; auditlist_stmt := auditlist_stmt g;
     gravityDB_opened := x; main_process := main_process g;
     this_process := this_process g |}.
Definition set_main_process (x : Z) (g : globals) : globals :=
  {| whitelist_stmt := whitelist_stmt g; gravity_stmt := gravity_stmt g; blacklist_stmt := blacklist_stmt g;
     gravity_db := gravity_db g; table_stmt := table_stmt g; auditlist_stmt := auditlist_stmt g;
     gravityDB_opened := gravityDB_opened g; main_process := x;
     this_process := this_process g |}.
Definition set_this_process (x : Z) (g : globals) : globals :=
  {| whitelist_stmt := whitelist_stmt g; gravity_stmt := gravity_stmt g; blacklist_stmt := blacklist_stmt g;
     gravity_db := gravity_db g; table_stmt := table_stmt g; auditlist_stmt := auditlist_stmt g;
     gravityDB_opened := gravityDB_opened g; main_process := main_process g;
     this_process := x |}.

(** What the code reads from outside: the process identity, whether
    [stat(FTLfiles.gravity_db)] succeeds, [counters->clients], the regex
    subsystem's [match_regex] and the [DATABASE_BUSY_TIMEOUT] setting. *)
Record env := {
  getpid : Z;
  gravity_db_exists : bool;
  counters_clients : nat;
  match_regex : string -> nat -> regex_type -> Z;
  DATABASE_BUSY_TIMEOUT : Z
}.

Record world := { vars : globals; sys : env; sqlite : engine }.

(** [clientsData]: only the address string, [getstr(client->ippos)], is
    used. *)
Record clientsData := { ip_of : string }.

Local Open Scope comp_scope.

Definition var {A} (f : globals -> A) : comp world A :=
  fun w => Done (f (vars w)) w.
Definition sysread {A} (f : env -> A) : comp world A :=
  fun w => Done (f (sys w)) w.
Definition upd_vars (f : globals -> globals) (w : world) : world :=
  {| vars := f (vars w); sys := sys w; sqlite := sqlite w |}.
Definition upd_sqlite (f : engine -> engine) (w : world) : world :=
  {| vars := vars w; sys := sys w; sqlite := f (sqlite w) |}.
Definition on_vars (f : globals -> globals) : comp world unit := modify (upd_vars f).
Definition on_sqlite (f : engine -> engine) : comp world unit := modify (upd_sqlite f).

(** *** Engine calls *)

(** The world with one more call on record. *)
Definition log (ev : event) : world -> world :=
  upd_sqlite (fun e => set_trace (ev :: trace e) e).

Definition emit (ev : event) : comp world unit := modify (log ev).

(** The next entry of the fault script, if any. *)
Definition consult : comp world (option fault) := fun w =>
  match faults (sqlite w) with
  | [] => Done None w
  | f :: fs => (on_sqlite (set_faults fs) ;;; ret f) w
  end.

Definition live_conn (e : engine) (c : option nat) : bool :=
  match c with
  | Some n => bool_decide (conns e !! n = Some true)
  | None => false
  end.

Definition find_stmt (e : engine) (h : option nat) : option (nat * stmt) :=
  match h with
  | Some n =>
      match stmts e !! n with
      | Some (Some st) => Some (n, st)
      | _ => None
      end
  | None => None
  end.

(** The world with statement slot [n] of the engine overwritten. *)
Definition store (n : nat) (st : option stmt) : world -> world :=
  upd_sqlite (fun e => set_stmts (<[n := st]> (stmts e)) e).

Definition put_stmt (n : nat) (st : option stmt) : comp world unit := modify (store n st).

(** The world with one more statement in the engine. *)
Definition append_stmt (st : stmt) : world -> world :=
  upd_sqlite (fun e => set_stmts (stmts e ++ [Some st]) e).

(** Modelled from the spec:
    [sqlite3_open_v2(FTLfiles.gravity_db, &gravity_db, SQLITE_OPEN_READONLY, NULL)];
    the second component is what is stored through the out-pointer, NULL
    when the call fails. *)
Definition sqlite3_open_v2 : comp world (rc * option nat) :=
  f <- consult ;;
  match f with
  | Some x => emit (EvOpen (rc_of_fault x)) ;;; ret (rc_of_fault x, None)
  | None => fun w =>
      let c := length (conns (sqlite w)) in
      (on_sqlite (fun e => set_conns (conns e ++ [true]) e) ;;;
       emit (EvOpen SQLITE_OK) ;;;
       ret (SQLITE_OK, Some c)) w
  end.

(** Modelled from the spec: [sqlite3_exec(db, sql, NULL, NULL, &zErrMsg)]. *)
Definition sqlite3_exec (c : option nat) (q : sql) : comp world rc :=
  f <- consult ;;
  r <- match f with
       | Some x => ret (rc_of_fault x)
       | None => fun w =>
           Done (if live_conn (sqlite w) c then SQLITE_OK else SQLITE_MISUSE) w
       end ;;
  emit (EvExec c q r) ;;; ret r.

(** Modelled from the spec: [sqlite3_busy_timeout(db, ms)]. *)
Definition sqlite3_busy_timeout (c : option nat) (ms : Z) : comp world rc :=
  f <- consult ;;
  r <- match f with
       | Some x => ret (rc_of_fault x)
       | None => fun w =>
           Done (if live_conn (sqlite w) c then SQLITE_OK else SQLITE_MISUSE) w
       end ;;
  emit (EvBusyTimeout c ms) ;;; ret r.

(** Modelled from the spec: [sqlite3_prepare_v2(db, zSql, -1, &stmt, NULL)];
    the second component is what is stored through the out-pointer (NULL
    on failure). *)
Definition sqlite3_prepare_v2 (c : option nat) (q : sql) : comp world (rc * option nat) :=
  f <- consult ;;
  res <- match f with
         | Some x => ret (rc_of_fault x, None)
         | None => fun w =>
             if negb (live_conn (sqlite w) c) then Done (SQLITE_MISUSE, None) w
             else if negb (compiles (db (sqlite w)) q) then Done (SQLITE_ERROR, None) w
             else
               let h := List.length (stmts (sqlite w)) in
               (modify (append_stmt (fresh_stmt q)) ;;;
                ret (SQLITE_OK, Some h)) w
         end ;;
  emit (EvPrepare c q (fst res)) ;;; ret res.

(** Modelled from the spec:
    [sqlite3_bind_text(stmt, 1, domain, -1, SQLITE_STATIC)]. *)
Definition sqlite3_bind_text (h : option nat) (t : string) : comp world rc :=
  f <- consult ;;
  r <- match f with
       | Some x => ret (rc_of_fault x)
       | None => fun w =>
           match find_stmt (sqlite w) h with
           | None => Done SQLITE_MISUSE w
           | Some (n, st) =>
               if negb (has_parameter (text st)) then Done SQLITE_RANGE w
               else if bool_decide (is_Some (pending st)) then Done SQLITE_MISUSE w
               else
                 (put_stmt n (Some {| text := text st; bound := Some t;
                                      pending := pending st; current := current st |}) ;;;
                  ret SQLITE_OK) w
           end
       end ;;
  emit (EvBindText h t r) ;;; ret r.

(** Modelled from the spec: [sqlite3_step(stmt)].  A statement that is
    not being stepped runs its query; each step delivers the next row, or
    done once the rows are used up. *)
Definition sqlite3_step (h : option nat) : comp world rc :=
  f <- consult ;;
  r <- match f with
       | Some x => ret (rc_of_fault x)
       | None => fun w =>
           match find_stmt (sqlite w) h with
           | None => Done SQLITE_MISUSE w
           | Some (n, st) =>
               let rows := match pending st with
                           | Some rows => rows
                           | None => run_query (db (sqlite w)) (text st) (bound st)
                           end in
               match rows with
               | [] =>
                   (put_stmt n (Some {| text := text st; bound := bound st;
                                        pending := None; current := None |}) ;;;
                    ret SQLITE_DONE) w
               | row :: rest =>
                   (put_stmt n (Some {| text := text st; bound := bound st;
                                        pending := Some rest; current := Some row |}) ;;;
                    ret SQLITE_ROW) w
               end
           end
       end ;;
  emit (EvStep h r) ;;; ret r.

(** A C [int] out of a 64-bit column value. *)
Definition to_int (z : Z) : Z := (z + 2 ^ 31) mod 2 ^ 32 - 2 ^ 31.

Definition column (e : engine) (h : option nat) (i : nat) : value :=
  match find_stmt e h with
  | Some (_, st) =>
      match current st with
      | Some row => default VNull (row !! i)
      | None => VNull
      end
  | None => VNull
  end.

(** The C [int] and the text pointer read from a column value. *)
Definition int_of (v : value) : Z :=
  match v with
  | VNull => 0
  | VInt z => to_int z
  | VText t => to_int (default 0 (read_int t))
  end.

Definition text_of (v : value) : option string :=
  match v with
  | VNull => None
  | VInt z => Some (show_int z)
  | VText t => Some t
  end.

(** Modelled from the spec: [sqlite3_column_int(stmt, i)] and
    [sqlite3_column_text(stmt, i)] on the row of the last step. *)
Definition sqlite3_column_int (h : option nat) (i : nat) : comp world Z := fun w =>
  let v := int_of (column (sqlite w) h i) in
  (emit (EvColumnInt h v) ;;; ret v) w.

Definition sqlite3_column_text (h : option nat) (i : nat) : comp world (option string) := fun w =>
  let v := text_of (column (sqlite w) h i) in
  (emit (EvColumnText h v) ;;; ret v) w.

(** Modelled from the spec: [sqlite3_reset(stmt)] ends the run of the
    statement and keeps its binding; [sqlite3_clear_bindings(stmt)] sets
    the parameter to NULL; [sqlite3_finalize(stmt)] destroys the
    statement; all three accept NULL. *)
Definition sqlite3_reset (h : option nat) : comp world unit := fun w =>
  (match find_stmt (sqlite w) h with
   | Some (n, st) =>
       put_stmt n (Some {| text := text st; bound := bound st;
                           pending := None; current := None |})
   | None => ret tt
   end ;;;
   emit (EvReset h)) w.

Definition sqlite3_clear_bindings (h : option nat) : comp world unit := fun w =>
  (match find_stmt (sqlite w) h with
   | Some (n, st) =>
       put_stmt n (Some {| text := text st; bound := None;
                           pending := pending st; current := current st |})
   | None => ret tt
   end ;;;
   emit (EvClearBindings h)) w.

Definition sqlite3_finalize (h : option nat) : comp world unit := fun w =>
  (match find_stmt (sqlite w) h with
   | Some (n, _) => put_stmt n None
   | None => ret tt
   end ;;;
   emit (EvFinalize h)) w.

(** Modelled from the spec: [sqlite3_close(db)]. *)
Definition sqlite3_close (c : option nat) : comp world unit :=
  match c with
  | Some n => on_sqlite (fun e => set_conns (<[n := false]> (conns e)) e)
  | None => ret tt
  end ;;;
  emit (EvClose c).

(** [match_regex(domain, clientID, type)] of the regex subsystem, an
    external collaborator: the index of the matching filter, or -1. *)
Definition call_match_regex (domain : string) (clientID : nat) (t : regex_type) : comp world Z :=
  r <- sysread (fun s => match_regex s domain clientID t) ;;
  emit (EvMatchRegex domain clientID t r) ;;; ret r.


(** *** The statement vectors *)

(** The three vector pointers [whitelist_stmt], [gravity_stmt] and
    [blacklist_stmt]. *)
Inductive vecname := Whitelist | Gravity | Blacklist.

Definition vec_ptr (n : vecname) (g : globals) : option vec :=
  match n with
  | Whitelist => whitelist_stmt g
  | Gravity => gravity_stmt g
  | Blacklist => blacklist_stmt g
  end.

Definition set_vec_ptr (n : vecname) (x : option vec) : globals -> globals :=
  match n with
  | Whitelist => set_whitelist_stmt x
  | Gravity => set_gravity_stmt x
  | Blacklist => set_blacklist_stmt x
  end.

(** Modelled from the spec: the statement vector of [vector.h], which is
    not among the sources.  It is a growable array of statement handles
    indexed by clientID whose untouched entries are NULL and whose growth
    keeps the existing entries.  [new_sqlite3_stmt_vec] allocates it at a
    given size. *)
Definition new_sqlite3_stmt_vec (size : nat) : vec := replicate size None.

(** Modelled from the spec: [v->get(v, index)] of [vector.h].  The call
    goes through the function pointer stored in the vector, so a NULL
    vector pointer is dereferenced. *)
Definition vec_get (n : vecname) (index : nat) : comp world (option nat) :=
  v <- var (vec_ptr n) ;;
  match v with
  | None => crash
  | Some items => ret (default None (items !! index))
  end.

(** Modelled from the spec: the items of a vector after entry [index] is
    set; an index beyond the end grows the array, the new entries in
    between being NULL. *)
Definition vec_store (items : vec) (index : nat) (item : option nat) : vec :=
  if bool_decide (index < List.length items)%nat then <[index := item]> items
  else (items ++ replicate (index - List.length items) None ++ [item])%list.

(** Modelled from the spec: [v->set(v, index, item)] of [vector.h]. *)
Definition vec_set (n : vecname) (index : nat) (item : option nat) : comp world unit :=
  v <- var (vec_ptr n) ;;
  match v with
  | None => crash
  | Some items => on_vars (set_vec_ptr n (Some (vec_store items index item)))
  end.

(** [for(int i = 0; i < n; i++) body(i);] *)
Fixpoint for_each (l : list nat) (body : nat -> comp world unit) : comp world unit :=
  match l with
  | [] => ret tt
  | i :: r => body i ;;; for_each r body
  end.

(** *** [gravity-db.c] *)

Definition is_ok (r : rc) : bool := bool_decide (r = SQLITE_OK).
Definition is_row (r : rc) : bool := bool_decide (r = SQLITE_ROW).
Definition is_done (r : rc) : bool := bool_decide (r = SQLITE_DONE).
Definition is_busy (r : rc) : bool := bool_decide (r = SQLITE_BUSY).
Definition is_null {A} (p : option A) : bool := bool_decide (p = None).

(** Lines 404-421. *)
Definition finalize_one (n : vecname) (clientID : nat) : comp world unit :=
  h <- vec_get n clientID ;;
  if negb (bool_decide (h = None)) then
    h' <- vec_get n clientID ;;
    sqlite3_finalize h' ;;;
    vec_set n clientID None
  else ret tt.

Definition gravityDB_finalize_client_statements (clientID : nat) : comp world unit :=
  finalize_one Whitelist clientID ;;;
  finalize_one Blacklist clientID ;;;
  finalize_one Gravity clientID.

(** Lines 424-452. *)
Definition gravityDB_close : comp world unit :=
  opened <- var gravityDB_opened ;;
  if negb opened then ret tt
  else
    n <- sysread counters_clients ;;
    for_each (seq 0 n) gravityDB_finalize_client_statements ;;;
    on_vars (set_whitelist_stmt None) ;;;
    on_vars (set_blacklist_stmt None) ;;;
    on_vars (set_gravity_stmt None) ;;;
    a <- var auditlist_stmt ;;
    sqlite3_finalize a ;;;
    on_vars (set_auditlist_stmt None) ;;;
    c <- var gravity_db ;;
    sqlite3_close c ;;;
    on_vars (set_gravity_db None) ;;;
    on_vars (set_gravityDB_opened false).

(** [if(v == NULL) v = new_sqlite3_stmt_vec(counters->clients);] *)
Definition allocate_if_null (n : vecname) : comp world unit :=
  v <- var (vec_ptr n) ;;
  if bool_decide (v = None) then
    size <- sysread counters_clients ;;
    on_vars (set_vec_ptr n (Some (new_sqlite3_stmt_vec size)))
  else ret tt.

(** Lines 82-184. *)
Definition gravityDB_open : comp world bool :=
  present <- sysread gravity_db_exists ;;
  if negb present then ret false
  else
    opened <- var gravityDB_opened ;;
    conn <- var gravity_db ;;
    if opened && negb (bool_decide (conn = None)) then ret true
    else
      o <- sqlite3_open_v2 ;;
      on_vars (set_gravity_db (snd o)) ;;;
      if negb (is_ok (fst o)) then gravityDB_close ;;; ret false
      else
        on_vars (set_gravityDB_opened true) ;;;
        conn <- var gravity_db ;;
        r <- sqlite3_exec conn SqlTempStore ;;
        if negb (is_ok r) then gravityDB_close ;;; ret false
        else
          p <- sqlite3_prepare_v2 conn SqlAudit ;;
          on_vars (set_auditlist_stmt (snd p)) ;;;
          if negb (is_ok (fst p)) then gravityDB_close ;;; ret false
          else
            ms <- sysread DATABASE_BUSY_TIMEOUT ;;
            sqlite3_busy_timeout conn ms ;;;
            allocate_if_null Whitelist ;;;
            allocate_if_null Blacklist ;;;
            allocate_if_null Gravity ;;;
            sqlite3_busy_timeout conn 0 ;;;
            ret true.

(** Lines 47-79. *)
Definition gravityDB_check_fork : comp world unit :=
  mp <- var main_process ;;
  (if mp =? 0 then
     me <- sysread getpid ;;
     on_vars (set_main_process me) ;;;
     mp' <- var main_process ;;
     on_vars (set_this_process mp')
   else ret tt) ;;;
  tp <- var this_process ;;
  me <- sysread getpid ;;
  if tp =? me then ret tt
  else
    on_vars (set_this_process me) ;;;
    on_vars (set_gravityDB_opened false) ;;;
    on_vars (set_gravity_db None) ;;;
    on_vars (set_whitelist_stmt None) ;;;
    on_vars (set_blacklist_stmt None) ;;;
    on_vars (set_gravity_stmt None) ;;;
    gravityDB_open ;;;
    ret tt.

(** The guard [!gravityDB_opened && !gravityDB_open()]. *)
Definition db_unavailable : comp world bool :=
  opened <- var gravityDB_opened ;;
  if opened then ret false
  else ok <- gravityDB_open ;; ret (negb ok).

(** Lines 536-544. *)
Definition gravityDB_finalizeTable : comp world unit :=
  opened <- var gravityDB_opened ;;
  if negb opened then ret tt
  else
    t <- var table_stmt ;;
    sqlite3_finalize t ;;;
    on_vars (set_table_stmt None).

(** Lines 186-200; [groups] is the pointer passed for [%s]. *)
Definition get_client_querystr (table : string) (groups : option string) : sql :=
  SqlExists table (default "(null)" groups).

(** Lines 203-329.  The second component is [*groups]. *)
Definition get_client_groupids (client : clientsData) : comp world (bool * option string) :=
  let ip := ip_of client in
  un <- db_unavailable ;;
  if un then ret (false, None)
  else
    conn <- var gravity_db ;;
    p <- sqlite3_prepare_v2 conn (SqlClientCount ip) ;;
    on_vars (set_table_stmt (snd p)) ;;;
    if negb (is_ok (fst p)) then ret (false, None)
    else
      t <- var table_stmt ;;
      r <- sqlite3_step t ;;
      if is_row r || is_done r then
        groups <- (if is_row r then
                     result <- sqlite3_column_int t 0 ;;
                     ret (if result =? 0 then Some "0" else None)
                   else ret (Some "0")) ;;
        gravityDB_finalizeTable ;;;
        if negb (is_null groups) then ret (true, groups)
        else
          conn <- var gravity_db ;;
          p <- sqlite3_prepare_v2 conn (SqlClientGroups ip) ;;
          on_vars (set_table_stmt (snd p)) ;;;
          if negb (is_ok (fst p)) then
            t <- var table_stmt ;;
            sqlite3_finalize t ;;;
            ret (false, None)
          else
            t <- var table_stmt ;;
            r <- sqlite3_step t ;;
            if is_row r then
              result <- sqlite3_column_text t 0 ;;
              gravityDB_finalizeTable ;;;
              ret (true, Some (default EmptyString result))
            else if is_done r then
              gravityDB_finalizeTable ;;;
              ret (true, Some EmptyString)
            else
              gravityDB_finalizeTable ;;;
              ret (false, None)
      else
        gravityDB_finalizeTable ;;;
        ret (false, None).

(** One of the three blocks of [gravityDB_prepare_client_statements]:
    build the text, prepare it, store the handle in the client's slot.
    The result tells whether the preparation succeeded. *)
Definition prepare_into (n : vecname) (table : string) (groups : option string)
    (clientID : nat) : comp world bool :=
  conn <- var gravity_db ;;
  p <- sqlite3_prepare_v2 conn (get_client_querystr table groups) ;;
  if negb (is_ok (fst p)) then gravityDB_close ;;; ret false
  else vec_set n clientID (snd p) ;;; ret true.

(** Lines 332-401. *)
Definition gravityDB_prepare_client_statements (clientID : nat) (client : clientsData)
    : comp world bool :=
  un <- db_unavailable ;;
  if un then ret false
  else
    g <- get_client_groupids client ;;
    if negb (fst g) then ret false
    else
      ok <- prepare_into Whitelist "vw_whitelist" (snd g) clientID ;;
      if negb ok then ret false
      else
        ok <- prepare_into Gravity "vw_gravity" (snd g) clientID ;;
        if negb ok then ret false
        else
          ok <- prepare_into Blacklist "vw_blacklist" (snd g) clientID ;;
          if negb ok then ret false
          else ret true.


(** [enum { GRAVITY_TABLE, EXACT_BLACKLIST_TABLE, EXACT_WHITELIST_TABLE,
    REGEX_BLACKLIST_TABLE, REGEX_WHITELIST_TABLE, UNKNOWN_TABLE }]; the
    [list] arguments are [unsigned char]. *)
Definition GRAVITY_TABLE : N := 0.
Definition EXACT_BLACKLIST_TABLE : N := 1.
Definition EXACT_WHITELIST_TABLE : N := 2.
Definition REGEX_BLACKLIST_TABLE : N := 3.
Definition REGEX_WHITELIST_TABLE : N := 4.
Definition UNKNOWN_TABLE : N := 5.

Definition tablename (list : N) : string :=
  nth (N.to_nat list)
      ["vw_gravity"; "vw_blacklist"; "vw_whitelist"; "vw_regex_blacklist";
       "vw_regex_whitelist"; EmptyString]
      EmptyString.

(** Lines 456-497. *)
Definition gravityDB_getTable (list : N) : comp world bool :=
  gravityDB_check_fork ;;;
  un <- db_unavailable ;;
  if un then ret false
  else if (UNKNOWN_TABLE <=? list)%N then ret false
  else
    conn <- var gravity_db ;;
    p <- sqlite3_prepare_v2 conn (SqlTable (tablename list)) ;;
    on_vars (set_table_stmt (snd p)) ;;;
    if negb (is_ok (fst p)) then gravityDB_close ;;; ret false
    else ret true.

(** Lines 507-533: the domain pointer and [*rowid]. *)
Definition gravityDB_getDomain : comp world (option string * Z) :=
  t <- var table_stmt ;;
  r <- sqlite3_step t ;;
  if is_row r then
    domain <- sqlite3_column_text t 0 ;;
    rowid <- sqlite3_column_int t 1 ;;
    ret (domain, rowid)
  else if negb (is_done r) then ret (None, -1)
  else ret (None, -1).

Section Count.

(** The failure constant of [FTL.h], which is not among the sources. *)
Variable DB_FAILED : Z.

(** Lines 549-616.  [return false;] in a function returning [int] yields
    0. *)
Definition gravityDB_count (list : N) : comp world Z :=
  un <- db_unavailable ;;
  if un then ret DB_FAILED
  else if (UNKNOWN_TABLE <=? list)%N then ret 0
  else
    let querystr :=
      if negb (list =? GRAVITY_TABLE)%N then SqlCountDistinct (tablename list)
      else SqlGravityCount in
    conn <- var gravity_db ;;
    p <- sqlite3_prepare_v2 conn querystr ;;
    on_vars (set_table_stmt (snd p)) ;;;
    if negb (is_ok (fst p)) then
      gravityDB_finalizeTable ;;;
      gravityDB_close ;;;
      ret DB_FAILED
    else
      t <- var table_stmt ;;
      r <- sqlite3_step t ;;
      if negb (is_row r) then
        gravityDB_finalizeTable ;;;
        gravityDB_close ;;;
        ret DB_FAILED
      else
        result <- sqlite3_column_int t 0 ;;
        gravityDB_finalizeTable ;;;
        ret result.

End Count.

(** Lines 618-685. *)
Definition domain_in_list (domain : string) (stmt : option nat) (listname : string)
    : comp world bool :=
  un <- db_unavailable ;;
  if un then ret false
  else
    rc1 <- sqlite3_bind_text stmt domain ;;
    if negb (is_ok rc1) then ret false
    else
      rc2 <- sqlite3_step stmt ;;
      if is_busy rc2 then
        sqlite3_reset stmt ;;;
        sqlite3_clear_bindings stmt ;;;
        ret false
      else if negb (is_row rc2) then
        sqlite3_reset stmt ;;;
        sqlite3_clear_bindings stmt ;;;
        ret false
      else
        result <- sqlite3_column_int stmt 0 ;;
        sqlite3_reset stmt ;;;
        sqlite3_clear_bindings stmt ;;;
        ret (result =? 1).

(** Lines 687-717. *)
Definition in_whitelist (domain : string) (clientID : nat) (client : clientsData)
    : comp world bool :=
  gravityDB_check_fork ;;;
  stmt <- vec_get Whitelist clientID ;;
  failed <- (if is_null stmt then
               ok <- gravityDB_prepare_client_statements clientID client ;;
               ret (negb ok)
             else ret false) ;;
  if failed then ret false
  else
    stmt <- (if is_null stmt then vec_get Whitelist clientID else ret stmt) ;;
    exact <- domain_in_list domain stmt "whitelist" ;;
    if exact then ret true
    else
      m <- call_match_regex domain clientID REGEX_WHITELIST ;;
      ret (negb (m =? -1)).

(** Lines 719-742. *)
Definition in_gravity (domain : string) (clientID : nat) (client : clientsData)
    : comp world bool :=
  gravityDB_check_fork ;;;
  stmt <- vec_get Gravity clientID ;;
  failed <- (if is_null stmt then
               ok <- gravityDB_prepare_client_statements clientID client ;;
               ret (negb ok)
             else ret false) ;;
  if failed then ret false
  else
    stmt <- (if is_null stmt then vec_get Whitelist clientID else ret stmt) ;;
    domain_in_list domain stmt "gravity".

(** Lines 744-767. *)
Definition in_blacklist (domain : string) (clientID : nat) (client : clientsData)
    : comp world bool :=
  gravityDB_check_fork ;;;
  stmt <- vec_get Blacklist clientID ;;
  failed <- (if is_null stmt then
               ok <- gravityDB_prepare_client_statements clientID client ;;
               ret (negb ok)
             else ret false) ;;
  if failed then ret false
  else
    stmt <- (if is_null stmt then vec_get Whitelist clientID else ret stmt) ;;
    domain_in_list domain stmt "blacklist".

(** Lines 769-781. *)
Definition in_auditlist (domain : string) : comp world bool :=
  gravityDB_check_fork ;;;
  a <- var auditlist_stmt ;;
  if is_null a then ret false
  else domain_in_list domain a "auditlist".

(** ** Worlds to run the code in *)

Definition no_vars : globals :=
  {| whitelist_stmt := None; gravity_stmt := None; blacklist_stmt := None;
     gravity_db := None; table_stmt := None; auditlist_stmt := None;
     gravityDB_opened := false; main_process := 0; this_process := 0 |}.

(** The process right after start: nothing opened, nothing prepared. *)
Definition boot (s : env) (d : database) (fs : list (option fault)) : world :=
  {| vars := no_vars; sys := s;
     sqlite := {| db := d; conns := []; stmts := []; faults := fs; trace := [] |} |}.

(** The same process seen from a forked child: everything is inherited,
    only the process identity differs. *)
Definition fork (child : Z) (w : world) : world :=
  {| vars := vars w;
     sys := {| getpid := child; gravity_db_exists := gravity_db_exists (sys w);
               counters_clients := counters_clients (sys w);
               match_regex := match_regex (sys w);
               DATABASE_BUSY_TIMEOUT := DATABASE_BUSY_TIMEOUT (sys w) |};
     sqlite := sqlite w |}.

Definition with_faults (fs : list (option fault)) (w : world) : world :=
  upd_sqlite (set_faults fs) w.

(** The world a run ends in and the value it returns, if it does not
    crash. *)
Definition after {A} (c : comp world A) (w : world) : option world :=
  match c w with
  | Done _ w' => Some w'
  | Crash => None
  end.

Definition result {A} (c : comp world A) (w : world) : option A :=
  match c w with
  | Done a _ => Some a
  | Crash => None
  end.

(** The number of calls of [match_regex] recorded in a trace. *)
Fixpoint regex_calls (t : list event) : nat :=
  match t with
  | [] => O
  | EvMatchRegex _ _ _ _ :: r => S (regex_calls r)
  | _ :: r => regex_calls r
  end.

(** The calls one lookup of [domain_in_list] adds to the trace [t], and
    the value it returns: the bind alone when it fails, else bind, step,
    the column read after a row, reset and clear-bindings. *)
Inductive lookup_run (domain : string) (stmt : option nat) (t : list event)
  : list event -> bool -> Prop :=
| run_bind_failed r :
    r <> SQLITE_OK ->
    lookup_run domain stmt t (EvBindText stmt domain r :: t) false
| run_no_row r :
    r <> SQLITE_ROW ->
    lookup_run domain stmt t
      (EvClearBindings stmt :: EvReset stmt :: EvStep stmt r
         :: EvBindText stmt domain SQLITE_OK :: t) false
| run_row v :
    lookup_run domain stmt t
      (EvClearBindings stmt :: EvReset stmt :: EvColumnInt stmt v
         :: EvStep stmt SQLITE_ROW :: EvBindText stmt domain SQLITE_OK :: t)
      (v =? 1).

(** The trace ends with a reset followed by clear-bindings on [stmt]. *)
Definition reset_and_cleared (stmt : option nat) (t : list event) : Prop :=
  exists t', t = EvClearBindings stmt :: EvReset stmt :: t'.

(** The statement behind [h], if there is one, has no value bound and is
    not in the middle of a run. *)
Definition idle (e : engine) (h : option nat) : Prop :=
  forall n st, find_stmt e h = Some (n, st) -> bound st = None /\ pending st = None.

(** ** Worlds in good order *)

(** The store is open on a live connection and the engine has no fault
    scripted. *)
Definition healthy (w : world) : Prop :=
  gravityDB_opened (vars w) = true /\
  faults (sqlite w) = [] /\
  live_conn (sqlite w) (gravity_db (vars w)) = true.

(** No fork is pending: either no process identity is recorded yet or the
    recorded one is the current one. *)
Definition same_process (w : world) : Prop :=
  main_process (vars w) = 0 \/ this_process (vars w) = getpid (sys w).

(** What [gravityDB_check_fork] leaves behind when no fork is pending. *)
Definition memorize (w : world) : world :=
  if main_process (vars w) =? 0 then
    upd_vars (fun g => set_this_process (getpid (sys w))
                         (set_main_process (getpid (sys w)) g)) w
  else w.

(** What [gravityDB_check_fork] does to the variables when it detects a
    fork, before it calls [gravityDB_open]. *)
Definition dropped (w : world) : world :=
  upd_vars (fun g =>
    set_gravity_stmt None (set_blacklist_stmt None (set_whitelist_stmt None
      (set_gravity_db None (set_gravityDB_opened false
        (set_this_process (getpid (sys w)) g)))))) w.

(** A run from [w] to [w'] that only made engine calls on statements it
    prepared and finalized itself: apart from dead statement slots and
    the cleared [table_stmt] nothing changed. *)
Definition engine_only (w w' : world) : Prop :=
  sys w' = sys w /\
  db (sqlite w') = db (sqlite w) /\
  conns (sqlite w') = conns (sqlite w) /\
  faults (sqlite w') = faults (sqlite w) /\
  (exists k, stmts (sqlite w') = (stmts (sqlite w) ++ replicate k None)%list) /\
  regex_calls (trace (sqlite w')) = regex_calls (trace (sqlite w)) /\
  vars w' = set_table_stmt None (vars w).

(** The statement [h] of the engine is prepared from [q] and is not in the
    middle of a run. *)
Definition ready_stmt (e : engine) (h : nat) (q : sql) : Prop :=
  exists st, stmts e !! h = Some (Some st) /\ text st = q /\ pending st = None.

(** The view each vector's statements query. *)
Definition view_of (n : vecname) : string :=
  match n with
  | Whitelist => "vw_whitelist"
  | Gravity => "vw_gravity"
  | Blacklist => "vw_blacklist"
  end.

(** The three vectors are allocated. *)
Definition vectors_allocated (w : world) : Prop :=
  forall n, vec_ptr n (vars w) <> None.

(** Client [clientID] has no statement in vector [n]. *)
Definition unprepared (w : world) (n : vecname) (clientID : nat) : Prop :=
  exists v, vec_ptr n (vars w) = Some v /\ default None (v !! clientID) = None.

(** Client [clientID] has its statement in vector [n], prepared for the
    group list [groups]. *)
Definition prepared (w : world) (n : vecname) (clientID : nat) (groups : string) : Prop :=
  exists v h, vec_ptr n (vars w) = Some v /\ v !! clientID = Some (Some h) /\
              ready_stmt (sqlite w) h (SqlExists (view_of n) groups).

(** Section 4.2 of the specification, in its words: the global group
    when no client record's subnet matches the address, else the
    comma-joined group identifiers associated with the first matching
    record, which is the empty set when it has none. *)
Definition resolveGroups (d : database) (ip : string) : string :=
  match matching_clients d ip with
  | [] => "0"
  | c :: _ =>
      concat_comma (map (fun cg => show_int (snd cg))
                        (filter (fun cg => fst cg = fst c) (client_by_group d)))
  end.

(** Section 8 of the specification, in its words: the domain exactly
    matches an entry of the view that is scoped to one of the groups. *)
Definition exact_match (d : database) (n : vecname) (groups domain : string) : bool :=
  match view d (view_of n), parse_groups groups with
  | Some rows, Some gs =>
      existsb (fun r => String.eqb (e_domain r) domain && in_groups gs (e_group r)) rows
  | _, _ => false
  end.

(** A run from [w] to [w'] that kept the store in good order: same
    surroundings and database, no call of [match_regex], every ready
    statement still ready. *)
Definition carries (w w' : world) : Prop :=
  (healthy w -> healthy w') /\
  (same_process w -> same_process w') /\
  sys w' = sys w /\
  db (sqlite w') = db (sqlite w) /\
  regex_calls (trace (sqlite w')) = regex_calls (trace (sqlite w)) /\
  (forall h q, ready_stmt (sqlite w) h q -> ready_stmt (sqlite w') h q).

(** No text of the string is a comma. *)
Definition no_comma (s : string) : Prop :=
  forall c, In c (String.list_ascii_of_string s) -> c <> ","%char.

(** The group list [groups] is in force for client [clientID]: the store
    is in good order on database [d] in surroundings [s], and the client's
    three statements are prepared for [groups]. *)
Definition serving (d : database) (s : env) (clientID : nat) (groups : string)
    (w : world) : Prop :=
  healthy w /\ same_process w /\ db (sqlite w) = d /\ sys w = s /\
  forall n, prepared w n clientID groups.

(** The store is in good order on database [d] in surroundings [s] and
    client [clientID] has no statement yet. *)
Definition unserved (d : database) (s : env) (clientID : nat) (w : world) : Prop :=
  healthy w /\ same_process w /\ db (sqlite w) = d /\ sys w = s /\
  forall n, unprepared w n clientID.

(** The code [in_whitelist], [in_gravity] and [in_blacklist] share, with
    the vector read first as [n] and what is done with the statement as
    [k]. *)
Definition with_client_statement (n : vecname) (clientID : nat) (client : clientsData)
    (k : option nat -> comp world bool) : comp world bool :=
  gravityDB_check_fork ;;;
  stmt <- vec_get n clientID ;;
  failed <- (if is_null stmt then
               ok <- gravityDB_prepare_client_statements clientID client ;;
               ret (negb ok)
             else ret false) ;;
  if failed then ret false
  else
    stmt <- (if is_null stmt then vec_get Whitelist clientID else ret stmt) ;;
    k stmt.

(** The three predicates that look a domain up in an exact list, and a
    run of such calls for one client, returning the answers in order. *)
Inductive predicate := InWhitelist | InGravity | InBlacklist.

Definition ask (p : predicate) (domain : string) (clientID : nat) (client : clientsData)
    : comp world bool :=
  match p with
  | InWhitelist => in_whitelist domain clientID client
  | InGravity => in_gravity domain clientID client
  | InBlacklist => in_blacklist domain clientID client
  end.

Fixpoint ask_all (calls : list (predicate * string)) (clientID : nat)
    (client : clientsData) : comp world (list bool) :=
  match calls with
  | [] => ret []
  | (p, domain) :: rest =>
      b <- ask p domain clientID client ;;
      bs <- ask_all rest clientID client ;;
      ret (b :: bs)
  end.

(** What a client without any group can get from a call: nothing from
    the exact lists, and from [in_whitelist] what the regex subsystem
    says. *)
Definition regex_only (s : env) (clientID : nat) (call : predicate * string) : bool :=
  match call with
  | (InWhitelist, domain) => negb (match_regex s domain clientID REGEX_WHITELIST =? -1)
  | (_, _) => false
  end.

(** A world after a successful lookup on statement [n]: the statement is
    idle again and the five calls are on record. *)
Definition looked_up (h : option nat) (n : nat) (q : sql) (domain : string) (v : Z)
    (w : world) : world :=
  upd_sqlite (fun e =>
    set_trace (EvClearBindings h :: EvReset h :: EvColumnInt h v
                 :: EvStep h SQLITE_ROW :: EvBindText h domain SQLITE_OK :: trace e)
              (set_stmts (<[n := Some (fresh_stmt q)]> (stmts e)) e)) w.

(** ** A small installation to run the code on *)

Definition demo_db : database :=
  {| vw_gravity := [ {| e_id := 1; e_domain := "ads.example"; e_group := 0 |} ];
     vw_blacklist := [ {| e_id := 1; e_domain := "bad.example"; e_group := 0 |} ];
     vw_whitelist := [ {| e_id := 1; e_domain := "good.example"; e_group := 0 |} ];
     vw_regex_blacklist := [];
     vw_regex_whitelist := [];
     client := [(1, "10.0.0.1"); (2, "10.0.0.2")];
     client_by_group := [(1, 3); (1, 0)];
     gravity_count := Some 1;
     domain_audit := ["*.google.de"];
     subnet_match := String.eqb |}.

Definition demo_env : env :=
  {| getpid := 100; gravity_db_exists := true; counters_clients := 2;
     match_regex := fun _ _ _ => -1; DATABASE_BUSY_TIMEOUT := 1000 |}.

(** A client without a record in the [client] table, and one with a
    record but no group. *)
Definition stranger : clientsData := {| ip_of := "10.0.0.9" |}.

Definition groupless : clientsData := {| ip_of := "10.0.0.2" |}.

(** The started process, and the same process with the database file
    missing. *)
Definition started : world := boot demo_env demo_db [].

Definition started_without_file : world :=
  boot {| getpid := 100; gravity_db_exists := false; counters_clients := 2;
          match_regex := fun _ _ _ => -1; DATABASE_BUSY_TIMEOUT := 1000 |}
       demo_db [].

(** The process after a first successful open. *)
Definition opened : world :=
  default started (after gravityDB_open started).

(** The process after it opened the database and closed it again. *)
Definition closed : world :=
  default started (after (gravityDB_open ;;; gravityDB_close) started).

(** The parent after its first table read, and a child forked from it. *)
Definition parent : world :=
  default started
    (after (gravityDB_getTable GRAVITY_TABLE ;;; gravityDB_finalizeTable) started).

Definition child : world := fork 200 parent.

(** The opened process with the engine about to run out of memory, and
    with the engine about to fail on its third call. *)
Definition opened_low_memory : world := with_faults [Some FAULT_NOMEM] opened.

Definition opened_failing_later : world :=
  with_faults [None; None; Some FAULT_ERROR] opened.

End GravityDB.

(** * Facts about computations *)

Lemma bind_Done {S A B} (c : comp S A) (k : A -> comp S B) s a s' :
  c s = Done a s' -> bind c k s = k a s'.
Proof. unfold bind. intros ->. reflexivity. Qed.

Lemma bind_Crash {S A B} (c : comp S A) (k : A -> comp S B) s :
  c s = Crash -> bind c k s = Crash.
Proof. unfold bind. intros ->. reflexivity. Qed.

Lemma bind_inv {S A B} (c : comp S A) (k : A -> comp S B) s b s2 :
  bind c k s = Done b s2 ->
  exists a s1, c s = Done a s1 /\ k a s1 = Done b s2.
Proof.
  unfold bind. destruct (c s) as [a s1|] eqn:E; [|discriminate].
  intros H. exists a, s1. split; [reflexivity | exact H].
Qed.

(** * Facts about the block-page detector *)

Module ExternalBlockedFacts.
Import ExternalBlocked.
Local Open Scope nat_scope.

Lemma slots_length r : List.length r <= maxIPs -> List.length (slots r) = maxIPs.
Proof.
  intros H. unfold slots. rewrite length_app, length_fmap, length_replicate. lia.
Qed.

Lemma slots_lookup r i :
  List.length r <= maxIPs -> i < maxIPs -> slots r !! i = Some (r !! i).
Proof.
  intros Hr Hi. unfold slots. destruct (decide (i < List.length r)) as [Hlt|Hge].
  - rewrite lookup_app_l by (rewrite length_fmap; lia).
    rewrite list_lookup_fmap. destruct (lookup_lt_is_Some_2 r i Hlt) as [x ->].
    reflexivity.
  - rewrite lookup_app_r by (rewrite length_fmap; lia).
    rewrite length_fmap, lookup_replicate_2 by lia.
    rewrite (lookup_ge_None_2 r i) by lia. reflexivity.
Qed.

Lemma slots_fill r x :
  List.length r < maxIPs -> <[List.length r := Some x]> (slots r) = slots (r ++ [x]).
Proof.
  intros H. unfold slots.
  rewrite insert_app_r_alt by (rewrite length_fmap; lia).
  rewrite length_fmap, Nat.sub_diag, fmap_app, length_app. simpl.
  destruct (maxIPs - List.length r) as [|k] eqn:E; [lia|].
  replace (maxIPs - (List.length r + 1)) with k by lia.
  simpl. rewrite <- app_assoc. reflexivity.
Qed.

Lemma slots_keep r :
  List.length r <= maxIPs -> <[List.length r := None]> (slots r) = slots r.
Proof.
  intros H. destruct (decide (List.length r < maxIPs)) as [Hlt|Hge].
  - apply list_insert_id. rewrite slots_lookup by lia.
    rewrite (lookup_ge_None_2 r) by lia. reflexivity.
  - apply list_insert_ge. rewrite slots_length by lia. lia.
Qed.

Lemma add_loop_slots addr l r s n i :
  deref l s = Some (slots r) -> List.length r <= maxIPs ->
  n + i = maxIPs -> i <= List.length r ->
  add_loop addr l n i s =
    if decide (List.length r < maxIPs) then fill addr l r s else Done false s.
Proof.
  intros Hd Hr. revert i. induction n as [|n IH]; intros i Hn Hi.
  - simpl. destruct (decide _); [lia | reflexivity].
  - simpl. rewrite Hd. rewrite slots_lookup by lia.
    destruct (r !! i) as [x|] eqn:E.
    + apply lookup_lt_Some in E. apply IH; lia.
    + apply lookup_ge_None_1 in E. assert (i = List.length r) as -> by lia.
      destruct (decide _); [reflexivity | lia].
Qed.

Lemma scan_loop_slots addr l r s n i :
  deref l s = Some (slots r) -> List.length r <= maxIPs ->
  n + i = maxIPs -> i <= List.length r ->
  scan_loop addr l n i s = Done (bool_decide (addr ∈ drop i r)) s.
Proof.
  intros Hd Hr. revert i. induction n as [|n IH]; intros i Hn Hi.
  - simpl. rewrite drop_ge by lia. reflexivity.
  - simpl. rewrite Hd. rewrite slots_lookup by lia.
    destruct (r !! i) as [x|] eqn:E.
    + rewrite (drop_S _ _ _ E). destruct (String.eqb_spec addr x) as [->|Hne].
      * f_equal. rewrite bool_decide_eq_true_2; [reflexivity | apply elem_of_cons; auto].
      * rewrite IH by (apply lookup_lt_Some in E; lia). f_equal.
        apply bool_decide_ext. rewrite elem_of_cons. intuition congruence.
    + apply lookup_ge_None_1 in E. rewrite drop_ge by lia. reflexivity.
Qed.


Lemma first_empty_app r t :
  first_empty ((Some <$> r) ++ None :: t) = Some (List.length r).
Proof.
  induction r as [|x r IH]; [reflexivity|].
  rewrite fmap_cons. change (S <$> first_empty ((Some <$> r) ++ None :: t) = Some (S (List.length r))).
  rewrite IH. reflexivity.
Qed.

Lemma first_empty_slots r :
  List.length r < maxIPs -> first_empty (slots r) = Some (List.length r).
Proof.
  intros H. unfold slots.
  destruct (maxIPs - List.length r) as [|k] eqn:E; [lia|].
  simpl. apply first_empty_app.
Qed.

Lemma calloc_list_inv s a s' :
  calloc_list s = Done a s' ->
  (a = None \/ a = Some (slots [])) /\
  blocked_IP_v4 s' = blocked_IP_v4 s /\ blocked_IP_v6 s' = blocked_IP_v6 s.
Proof.
  unfold calloc_list, alloc, bind, ret.
  destruct (heap s) as [|[|] h]; intros H; inversion H; subst; auto.
Qed.

Lemma allocate_lists_shaped s0 s l :
  allocate_lists s0 = Done tt s -> shaped l [] s.
Proof.
  unfold allocate_lists. intros H.
  apply bind_inv in H as (a4 & s1 & H1 & H).
  apply bind_inv in H as ([] & s2 & H2 & H).
  apply bind_inv in H as (a6 & s3 & H3 & H).
  apply calloc_list_inv in H1 as (Ha4 & _ & _).
  apply calloc_list_inv in H3 as (Ha6 & H34 & _).
  inversion H2; subst s2. inversion H; subst s. clear H H2.
  split; [simpl; lia|].
  destruct l; simpl.
  - rewrite H34. simpl. destruct Ha4 as [->| ->]; reflexivity.
  - destruct Ha6 as [->| ->]; reflexivity.
Qed.

Lemma fill_frame addr l r s b s' l' :
  fill addr l r s = Done b s' -> l' <> l -> deref l' s' = deref l' s.
Proof.
  unfold fill, strdup, alloc, bind, ret, modify. intros H Hne.
  destruct (heap s) as [|[|] h]; simpl in H; inversion H; subst; clear H;
    destruct l, l'; try congruence; reflexivity.
Qed.

Lemma fill_true addr l r s s' :
  fill addr l r s = Done true s' ->
  deref l s' = Some (<[List.length r := Some addr]> (slots r)).
Proof.
  unfold fill, strdup, alloc, bind, ret, modify. intros H.
  destruct (heap s) as [|[|] h]; simpl in H; inversion H; subst; clear H;
    destruct l; reflexivity.
Qed.

Lemma fill_false addr l r s s' :
  fill addr l r s = Done false s' ->
  deref l s' = Some (<[List.length r := None]> (slots r)).
Proof.
  unfold fill, strdup, alloc, bind, ret, modify. intros H.
  destruct (heap s) as [|[|] h]; simpl in H; inversion H; subst; clear H;
    destruct l; reflexivity.
Qed.

Lemma add_loop_frame addr l n i s b s' l' :
  add_loop addr l n i s = Done b s' -> l' <> l -> deref l' s' = deref l' s.
Proof.
  revert i. induction n as [|n IH]; intros i H Hne; simpl in H.
  - inversion H; subst. reflexivity.
  - destruct (deref l s) as [a|] eqn:Hd; [|discriminate].
    destruct (a !! i) as [[x|]|]; [eauto| |discriminate].
    revert H. unfold strdup, alloc, bind, ret, modify.
    destruct (heap s) as [|[|] h]; simpl; intros H; inversion H; subst;
      destruct l, l'; try congruence; reflexivity.
Qed.

(** What the loop of [add_blocked_IP] does to a list in shape. *)
Lemma add_loop_shaped addr l r s b s' :
  shaped l r s ->
  add_loop addr l maxIPs 0 s = Done b s' ->
  shaped l (if b then r ++ [addr] else r) s' /\
  (b = true ->
     exists a, deref l s = Some a /\ List.length r < maxIPs /\
               deref l s' = Some (<[List.length r := Some addr]> a)).
Proof.
  intros [Hr Hs] H. destruct (deref l s) as [a|] eqn:Hd.
  - subst a. rewrite (add_loop_slots addr l r s maxIPs 0 Hd Hr) in H by lia.
    destruct (decide (List.length r < maxIPs)) as [Hlt|Hge].
    + destruct b.
      * apply fill_true in H. split.
        -- split; [rewrite length_app; simpl; lia|].
           rewrite H. apply slots_fill. exact Hlt.
        -- intros _. exists (slots r). auto.
      * apply fill_false in H. split; [|discriminate].
        split; [exact Hr|]. rewrite H. apply slots_keep. exact Hr.
    + inversion H; subst. split; [|discriminate].
      split; [exact Hr|]. rewrite Hd. reflexivity.
  - unfold maxIPs in H. simpl in H. rewrite Hd in H. discriminate.
Qed.

Section WithLibc.
Variable inet_pton : af -> string -> Z.

Lemma add_blocked_IP_cases addr type b s s' :
  add_blocked_IP inet_pton addr type s = Done b s' ->
  (b = false /\ s' = s) \/
  (exists l, family type = Some l /\ add_loop addr l maxIPs 0 s = Done b s').
Proof.
  unfold add_blocked_IP, family. intros H.
  destruct (Z.eqb type 4).
  - destruct (negb _); [left; inversion H; auto | right; eauto].
  - destruct (Z.eqb type 6).
    + destruct (negb _); [left; inversion H; auto | right; eauto].
    + left. inversion H; auto.
Qed.

(** What one call of [add_blocked_IP] does to a registry in shape. *)
Lemma add_blocked_IP_step addr type b s s' l r :
  shaped l r s ->
  add_blocked_IP inet_pton addr type s = Done b s' ->
  shaped l (r ++ registers l type b addr) s' /\
  (family type = Some l -> b = true ->
     exists a, deref l s = Some a /\ List.length r < maxIPs /\
               deref l s' = Some (<[List.length r := Some addr]> a)).
Proof.
  intros Hsh H. unfold registers.
  destruct (add_blocked_IP_cases _ _ _ _ _ H) as [[-> ->]|(l0 & Hf & Hl)].
  - assert (E : (match family type with
                 | Some l' => if false && bool_decide (l = l') then [addr] else []
                 | None => []
                 end) = []) by (destruct (family type); reflexivity).
    rewrite E, app_nil_r. split; [exact Hsh | discriminate].
  - rewrite Hf. destruct (decide (l = l0)) as [<-|Hne].
    + rewrite bool_decide_eq_true_2, andb_true_r by reflexivity.
      destruct (add_loop_shaped _ _ _ _ _ _ Hsh Hl) as [H1 H2].
      split; [|intros _; exact H2].
      destruct b; [exact H1 | rewrite app_nil_r; exact H1].
    + rewrite bool_decide_eq_false_2, andb_false_r, app_nil_r by exact Hne.
      split; [|intros Hf'; congruence].
      destruct Hsh as [Hr Hs]. split; [exact Hr|].
      rewrite (add_loop_frame _ _ _ _ _ _ _ l Hl Hne). exact Hs.
Qed.

Lemma reaches_shaped r4 r6 s l :
  reaches inet_pton r4 r6 s -> shaped l (registered l r4 r6) s.
Proof.
  induction 1 as [s0 s H|r4 r6 s addr type b s' _ IH H].
  - destruct l; exact (allocate_lists_shaped _ _ _ H).
  - destruct l; simpl in *; exact (proj1 (add_blocked_IP_step _ _ _ _ _ _ _ IH H)).
Qed.

(** In every state the registration calls can reach, the array of each
    address family is [slots r] for the addresses [r] registered so far
    for that family: at most [maxIPs] of them, in the leading slots, all
    other slots empty.  Hence the loop of lines 115-127, when it is run on
    that array, finds exactly the registered addresses, and a
    registration that succeeds writes the first empty slot. *)
Lemma reaches_contiguous_prefix r4 r6 s l a :
  reaches inet_pton r4 r6 s ->
  deref l s = Some a ->
  let r := registered l r4 r6 in
  List.length r <= maxIPs /\
  a = slots r /\
  (forall addr, scan_loop addr l maxIPs 0 s = Done (bool_decide (addr ∈ r)) s) /\
  (forall addr type s',
     family type = Some l ->
     add_blocked_IP inet_pton addr type s = Done true s' ->
     exists k, first_empty a = Some k /\ deref l s' = Some (<[k := Some addr]> a)).
Proof.
  intros Hreach Hd r.
  pose proof (reaches_shaped _ _ _ l Hreach) as Hsh. fold r in Hsh.
  destruct Hsh as [Hr Hs]. rewrite Hd in Hs. subst a.
  split; [exact Hr|]. split; [reflexivity|]. split.
  - intros addr. rewrite (scan_loop_slots addr l r s maxIPs 0 Hd Hr) by lia.
    reflexivity.
  - intros addr type s' Hf Hadd.
    assert (Hsh : shaped l r s) by (split; [exact Hr | rewrite Hd; reflexivity]).
    destruct (add_blocked_IP_step _ _ _ _ _ _ _ Hsh Hadd) as [_ Hfill].
    destruct (Hfill Hf eq_refl) as (a & Ha & Hlt & Hs').
    rewrite Hd in Ha. inversion Ha; subst a.
    exists (List.length r). split; [apply first_empty_slots; exact Hlt | exact Hs'].
Qed.

(** C10: in every state the registration calls can reach, the array of
    each address family holds the addresses registered for it as a
    contiguous prefix, a successful registration fills the first empty
    slot, and [is_blocked_IP] with family 4 scans the IPv4 array and finds
    exactly the addresses registered for IPv4.  With family 6 the function
    leaves through [default] before its loop: an address registered for
    IPv6 sits in the prefix of the IPv6 array, where the loop would find
    it, and [is_blocked_IP] returns false without examining it. *)
Theorem is_blocked_IP_skips_v6_prefix r4 r6 s addr :
  reaches inet_pton r4 r6 s ->
  addr ∈ r6 ->
  (forall l a,
     deref l s = Some a ->
     List.length (registered l r4 r6) <= maxIPs /\
     a = slots (registered l r4 r6) /\
     forall x type s',
       family type = Some l ->
       add_blocked_IP inet_pton x type s = Done true s' ->
       exists k, first_empty a = Some k /\ deref l s' = Some (<[k := Some x]> a)) /\
  (forall x, blocked_IP_v4 s <> None ->
     is_blocked_IP (Some x) 4 s = Done (bool_decide (x ∈ r4)) s) /\
  blocked_IP_v6 s = Some (slots r6) /\
  Some addr ∈ slots r6 /\
  scan_loop addr V6 maxIPs 0 s = Done true s /\
  is_blocked_IP (Some addr) 6 s = Done false s.
Proof.
  intros Hreach Hin.
  assert (H6 : blocked_IP_v6 s = Some (slots r6)).
  { destruct (reaches_shaped _ _ _ V6 Hreach) as [_ Hs]. simpl in Hs.
    destruct (blocked_IP_v6 s) as [a|]; [subst a; reflexivity|].
    subst r6. apply elem_of_nil in Hin. contradiction. }
  split; [|split; [|split; [exact H6|split; [|split]]]].
  - intros l a Hd.
    destruct (reaches_contiguous_prefix _ _ _ l a Hreach Hd) as (Hr & Ha & _ & Hfill).
    split; [exact Hr|]. split; [exact Ha | exact Hfill].
  - intros x Hv. destruct (blocked_IP_v4 s) as [a|] eqn:Hd; [|congruence].
    destruct (reaches_contiguous_prefix _ _ _ V4 a Hreach Hd) as (_ & _ & Hscan & _).
    exact (Hscan x).
  - unfold slots. apply elem_of_app. left. apply list_elem_of_fmap.
    exists addr. split; [reflexivity | exact Hin].
  - destruct (reaches_contiguous_prefix _ _ _ V6 _ Hreach H6) as (_ & _ & Hscan & _).
    rewrite (Hscan addr). f_equal. apply bool_decide_eq_true_2. exact Hin.
  - reflexivity.
Qed.

(** Every state [init_blocked_IP] ends in is reached by registrations. *)
Lemma init_blocked_IP_reaches s0 s :
  init_blocked_IP inet_pton s0 = Done tt s -> exists r4 r6, reaches inet_pton r4 r6 s.
Proof.
  unfold init_blocked_IP. intros H.
  apply bind_inv in H as ([] & s1 & Ha & H).
  pose proof (reaches_allocated inet_pton _ _ Ha) as R.
  repeat (apply bind_inv in H as (? & ? & Hadd & H);
          pose proof (reaches_add inet_pton _ _ _ _ _ _ _ R Hadd) as R';
          clear R Hadd; rename R' into R).
  inversion H; subst. eauto.
Qed.

End WithLibc.

Lemma is_blocked_IP_skips_v6_prefix_witness :
  reaches inet_pton_text [] ["::"] one_registered_v6 /\
  "::" ∈ ["::"] /\
  blocked_IP_v6 one_registered_v6 = Some (slots ["::"]) /\
  Some "::" ∈ slots ["::"] /\
  scan_loop "::" V6 maxIPs 0 one_registered_v6 = Done true one_registered_v6 /\
  is_blocked_IP (Some "::") 6 one_registered_v6 = Done false one_registered_v6.
Proof.
  assert (R : reaches inet_pton_text [] ["::"] one_registered_v6).
  { apply (reaches_add inet_pton_text [] [] allocated "::" 6 true one_registered_v6).
    - apply (reaches_allocated inet_pton_text (unallocated [])). reflexivity.
    - reflexivity. }
  assert (E : "::" ∈ ["::"]) by (apply elem_of_cons; left; reflexivity).
  split; [exact R|]. split; [exact E|].
  exact (proj2 (proj2 (is_blocked_IP_skips_v6_prefix inet_pton_text
                         [] ["::"] one_registered_v6 "::" R E))).
Defined.

(** The switch of [is_blocked_IP] leaves through [default] for type 6:
    no address is ever found in the IPv6 registry. *)
Lemma is_blocked_IP_type6 addr s : is_blocked_IP addr 6 s = Done false s.
Proof. destruct addr; reflexivity. Qed.

(** C2: [init_blocked_IP] stores "::" and "::ffff:146.112.61.104" in the
    IPv6 registry, and [is_blocked_IP] still answers false for both with
    family 6, while the IPv4 zero address is found with family 4. *)
Theorem is_blocked_IP_misses_seeded_v6 :
  init_blocked_IP inet_pton_text (unallocated []) = Done tt seeded /\
  (exists a, blocked_IP_v6 seeded = Some a /\
             Some "::" ∈ a /\ Some "::ffff:146.112.61.104" ∈ a) /\
  is_blocked_IP (Some "::") 6 seeded = Done false seeded /\
  is_blocked_IP (Some "::ffff:146.112.61.104") 6 seeded = Done false seeded /\
  is_blocked_IP (Some "0.0.0.0") 4 seeded = Done true seeded.
Proof.
  split; [reflexivity|]. split.
  - eexists. split; [reflexivity|]. split.
    + apply elem_of_cons. left. reflexivity.
    + apply elem_of_cons. right. apply elem_of_cons. left. reflexivity.
  - repeat split; reflexivity.
Qed.

End ExternalBlockedFacts.

(** * Facts about the gravity database routines *)

Module GravityDBFacts.
Import GravityDB.
Local Open Scope comp_scope.

(** ** Runs on the demo installation *)

(** C1: on the first call for a client, when the statements are prepared
    inside the call, [in_gravity] and [in_blacklist] step the client's
    whitelist statement: a gravity (blacklist) domain is reported absent
    and a whitelisted domain is reported present.  From the second call on
    the statement of the right class is used. *)
Theorem first_lookup_uses_whitelist_statement :
  result (in_gravity "ads.example" 0 stranger) opened = Some false /\
  result (in_gravity "good.example" 0 stranger) opened = Some true /\
  result (in_blacklist "bad.example" 0 stranger) opened = Some false /\
  result (in_blacklist "good.example" 0 stranger) opened = Some true /\
  result (in_gravity "ads.example" 0 stranger ;;; in_gravity "ads.example" 0 stranger)
         opened = Some true /\
  result (in_blacklist "bad.example" 0 stranger ;;; in_blacklist "bad.example" 0 stranger)
         opened = Some true /\
  result (get_client_groupids stranger) opened = Some (true, Some "0") /\
  run_query demo_db (SqlExists "vw_gravity" "0") (Some "ads.example") = [[VInt 1]] /\
  run_query demo_db (SqlExists "vw_gravity" "0") (Some "good.example") = [[VInt 0]] /\
  run_query demo_db (SqlExists "vw_blacklist" "0") (Some "bad.example") = [[VInt 1]] /\
  run_query demo_db (SqlExists "vw_blacklist" "0") (Some "good.example") = [[VInt 0]].
Proof. vm_compute. repeat split. Qed.


(** C3: in a forked child [gravityDB_count] does not notice the fork.  It
    prepares and steps its query on the connection inherited from the
    parent and leaves the recorded process identity untouched, whereas
    [gravityDB_getTable] in the same child drops the inherited connection
    without closing it and opens its own. *)
Theorem gravityDB_count_runs_without_fork_check :
  this_process (vars child) = 100 /\ getpid (sys child) = 200 /\
  gravity_db (vars child) = Some 0%nat /\
  (forall DB_FAILED, exists w',
     gravityDB_count DB_FAILED GRAVITY_TABLE child = Done 1 w' /\
     this_process (vars w') = 100 /\
     gravity_db (vars w') = Some 0%nat /\
     trace (sqlite w') =
       EvFinalize (Some 2%nat) :: EvColumnInt (Some 2%nat) 1
         :: EvStep (Some 2%nat) SQLITE_ROW
         :: EvPrepare (Some 0%nat) SqlGravityCount SQLITE_OK
         :: trace (sqlite child)) /\
  (exists w',
     gravityDB_getTable GRAVITY_TABLE child = Done true w' /\
     this_process (vars w') = 200 /\
     gravity_db (vars w') = Some 1%nat /\
     trace (sqlite w') =
       EvPrepare (Some 1%nat) (SqlTable "vw_gravity") SQLITE_OK
         :: EvBusyTimeout (Some 1%nat) 0 :: EvBusyTimeout (Some 1%nat) 1000
         :: EvPrepare (Some 1%nat) SqlAudit SQLITE_OK
         :: EvExec (Some 1%nat) SqlTempStore SQLITE_OK
         :: EvOpen SQLITE_OK
         :: trace (sqlite child)).
Proof.
  split; [reflexivity|]. split; [reflexivity|]. split; [reflexivity|]. split.
  - intros DB_FAILED. eexists. split; [vm_compute; reflexivity|].
    repeat split.
  - eexists. split; [vm_compute; reflexivity|]. repeat split.
Qed.

(** C5: with the store open, a list class at or beyond [UNKNOWN_TABLE]
    makes [gravityDB_count] return 0, whatever [DB_FAILED] is, and leave
    the world untouched. *)
Theorem gravityDB_count_unknown_list_returns_zero DB_FAILED w list :
  gravityDB_opened (vars w) = true ->
  (UNKNOWN_TABLE <= list)%N ->
  gravityDB_count DB_FAILED list w = Done 0 w.
Proof.
  intros Ho Hl. unfold gravityDB_count, db_unavailable, var, bind, ret.
  rewrite Ho. apply N.leb_le in Hl. rewrite Hl. reflexivity.
Qed.

Lemma gravityDB_count_unknown_list_returns_zero_witness :
  gravityDB_opened (vars opened) = true /\
  (UNKNOWN_TABLE <= UNKNOWN_TABLE)%N /\
  gravityDB_count (-2) UNKNOWN_TABLE opened = Done 0 opened.
Proof.
  split; [reflexivity|]. split; [reflexivity|].
  apply (gravityDB_count_unknown_list_returns_zero (-2) opened UNKNOWN_TABLE);
    reflexivity.
Defined.

(** A membership predicate called while its vector pointer is NULL and no
    fork is pending dereferences the NULL pointer. *)
Lemma vec_get_null n i w : vec_ptr n (vars w) = None -> vec_get n i w = Crash.
Proof. unfold vec_get, var, bind. intros ->. reflexivity. Qed.

Lemma gravityDB_check_fork_same_process w :
  main_process (vars w) <> 0 -> this_process (vars w) = getpid (sys w) ->
  gravityDB_check_fork w = Done tt w.
Proof.
  intros Hm Ht. unfold gravityDB_check_fork, var, sysread, bind, ret.
  apply Z.eqb_neq in Hm. rewrite Hm. apply Z.eqb_eq in Ht. rewrite Ht. reflexivity.
Qed.

Lemma in_whitelist_null_vector domain clientID client w :
  main_process (vars w) <> 0 -> this_process (vars w) = getpid (sys w) ->
  whitelist_stmt (vars w) = None ->
  in_whitelist domain clientID client w = Crash.
Proof.
  intros Hm Ht Hv. unfold in_whitelist.
  rewrite (bind_Done _ _ _ _ _ (gravityDB_check_fork_same_process w Hm Ht)).
  apply bind_Crash. apply vec_get_null. exact Hv.
Qed.

(** C6: after [gravityDB_close] has freed the statement vectors, and
    likewise when the database file was never there, [in_whitelist],
    [in_gravity] and [in_blacklist] crash instead of returning false;
    only [in_auditlist] returns false.  The code gets there on its own:
    when preparing a client's statement fails, the call closes the store
    and returns false, and the next call crashes. *)
Theorem membership_predicates_crash_without_vectors :
  gravityDB_opened (vars closed) = false /\
  whitelist_stmt (vars closed) = None /\
  in_whitelist "good.example" 0 stranger closed = Crash /\
  in_gravity "ads.example" 0 stranger closed = Crash /\
  in_blacklist "bad.example" 0 stranger closed = Crash /\
  result (in_auditlist "mail.google.de") closed = Some false /\
  in_whitelist "good.example" 0 stranger started_without_file = Crash /\
  in_gravity "ads.example" 0 stranger started_without_file = Crash /\
  in_blacklist "bad.example" 0 stranger started_without_file = Crash /\
  result (in_auditlist "mail.google.de") started_without_file = Some false /\
  result (in_whitelist "good.example" 0 stranger) opened_failing_later = Some false /\
  (in_whitelist "good.example" 0 stranger ;;; in_whitelist "good.example" 0 stranger)
    opened_failing_later = Crash.
Proof. vm_compute. repeat split. Qed.


(** ** Single engine calls *)

Lemma find_stmt_inv e h n st :
  find_stmt e h = Some (n, st) -> h = Some n /\ stmts e !! n = Some (Some st).
Proof.
  unfold find_stmt. destruct h as [m|]; [|discriminate].
  destruct (stmts e !! m) as [[st'|]|] eqn:E; try discriminate.
  intros H. inversion H; subst. auto.
Qed.

Lemma find_stmt_stored e n x st :
  stmts e !! n = Some x ->
  find_stmt (set_stmts (<[n := Some st]> (stmts e)) e) (Some n) = Some (n, st).
Proof.
  intros H. unfold find_stmt. simpl.
  rewrite list_lookup_insert_eq by (apply lookup_lt_Some in H; exact H).
  reflexivity.
Qed.

(** Case analysis on the tests an engine call makes. *)
Ltac engine_cases :=
  repeat (simpl;
          match goal with
          | |- context [match find_stmt ?e ?h with _ => _ end] =>
              destruct (find_stmt e h) as [[? ?]|] eqn:?
          | |- context [match pending ?s with _ => _ end] =>
              destruct (pending s) as [[|? ?]|] eqn:?
          | |- context [match run_query ?d ?q ?a with _ => _ end] =>
              destruct (run_query d q a) as [|? ?] eqn:?
          | |- context [if ?b then _ else _] => destruct b eqn:?
          end).

Lemma sqlite3_bind_text_trace h t w :
  exists r w1, sqlite3_bind_text h t w = Done r w1 /\
               trace (sqlite w1) = EvBindText h t r :: trace (sqlite w).
Proof.
  unfold sqlite3_bind_text, consult, bind, ret, put_stmt, on_sqlite, modify, emit.
  destruct (faults (sqlite w)) as [|[f|] fs]; engine_cases; eauto.
Qed.

Lemma sqlite3_step_trace h w :
  exists r w1, sqlite3_step h w = Done r w1 /\
               trace (sqlite w1) = EvStep h r :: trace (sqlite w).
Proof.
  unfold sqlite3_step, consult, bind, ret, put_stmt, on_sqlite, modify, emit.
  destruct (faults (sqlite w)) as [|[f|] fs]; engine_cases; eauto.
Qed.

Lemma sqlite3_column_int_trace h i w :
  exists v w1, sqlite3_column_int h i w = Done v w1 /\
               trace (sqlite w1) = EvColumnInt h v :: trace (sqlite w).
Proof.
  unfold sqlite3_column_int, bind, ret, on_sqlite, modify, emit. simpl. eauto.
Qed.

Lemma sqlite3_reset_trace h w :
  exists w1, sqlite3_reset h w = Done tt w1 /\
             trace (sqlite w1) = EvReset h :: trace (sqlite w) /\
             forall n st, find_stmt (sqlite w1) h = Some (n, st) -> pending st = None.
Proof.
  unfold sqlite3_reset, bind, ret, put_stmt, on_sqlite, modify, emit.
  destruct (find_stmt (sqlite w) h) as [[n st]|] eqn:E; simpl.
  - eexists. split; [reflexivity|]. split; [reflexivity|].
    apply find_stmt_inv in E as [-> E]. intros n' st' H.
    unfold find_stmt in H. simpl in H.
    rewrite list_lookup_insert_eq in H by (apply lookup_lt_Some in E; exact E).
    inversion H; subst. reflexivity.
  - eexists. split; [reflexivity|]. split; [reflexivity|].
    intros n st H. unfold find_stmt in *. simpl in H. rewrite E in H. discriminate.
Qed.

Lemma sqlite3_clear_bindings_trace h w :
  exists w1, sqlite3_clear_bindings h w = Done tt w1 /\
             trace (sqlite w1) = EvClearBindings h :: trace (sqlite w) /\
             forall n st, find_stmt (sqlite w1) h = Some (n, st) ->
               bound st = None /\
               exists st0, find_stmt (sqlite w) h = Some (n, st0) /\
                           pending st = pending st0.
Proof.
  unfold sqlite3_clear_bindings, bind, ret, put_stmt, on_sqlite, modify, emit.
  destruct (find_stmt (sqlite w) h) as [[n st]|] eqn:E; simpl.
  - eexists. split; [reflexivity|]. split; [reflexivity|].
    pose proof E as E'. apply find_stmt_inv in E' as [-> E'']. intros n' st' H.
    unfold find_stmt in H. simpl in H.
    rewrite list_lookup_insert_eq in H by (apply lookup_lt_Some in E''; exact E'').
    inversion H; subst. simpl. split; [reflexivity|]. exists st. auto.
  - eexists. split; [reflexivity|]. split; [reflexivity|].
    intros n st H. unfold find_stmt in *. simpl in H. rewrite E in H. discriminate.
Qed.

(** Reset followed by clear-bindings: the calls are recorded and the
    statement is left idle. *)
Lemma reset_then_clear h w (b : bool) :
  exists w2,
    (sqlite3_reset h ;;; sqlite3_clear_bindings h ;;; (ret b : comp world bool)) w = Done b w2 /\
    trace (sqlite w2) = EvClearBindings h :: EvReset h :: trace (sqlite w) /\
    idle (sqlite w2) h.
Proof.
  destruct (sqlite3_reset_trace h w) as (w1 & H1 & T1 & P1).
  destruct (sqlite3_clear_bindings_trace h w1) as (w2 & H2 & T2 & P2).
  exists w2. split.
  - rewrite (bind_Done _ _ _ _ _ H1), (bind_Done _ _ _ _ _ H2). reflexivity.
  - split; [rewrite T2, T1; reflexivity|].
    intros n st H. destruct (P2 n st H) as (Hb & st0 & H0 & Hp).
    split; [exact Hb|]. rewrite Hp. exact (P1 n st0 H0).
Qed.

(** ** [domain_in_list] *)

(** C4, as the code has it: with the store open, [domain_in_list] always
    returns.  When the bind fails it returns false right after the bind
    and makes no further engine call.  Otherwise it steps the statement,
    returns false on busy and on every other result that is not a row,
    returns whether the flag read from the row is 1, and in each of these
    cases its last two engine calls are reset and clear-bindings, which
    leave the statement unbound and not running. *)
Theorem domain_in_list_discipline domain stmt listname w :
  gravityDB_opened (vars w) = true ->
  exists b w',
    domain_in_list domain stmt listname w = Done b w' /\
    lookup_run domain stmt (trace (sqlite w)) (trace (sqlite w')) b /\
    (reset_and_cleared stmt (trace (sqlite w')) -> idle (sqlite w') stmt).
Proof.
  intros Ho. unfold domain_in_list, db_unavailable.
  unfold var at 1. unfold bind at 1 2. rewrite Ho. unfold ret at 1.
  destruct (sqlite3_bind_text_trace stmt domain w) as (r1 & w1 & H1 & T1).
  rewrite (bind_Done _ _ _ _ _ H1).
  destruct (decide (r1 = SQLITE_OK)) as [->|Hne1].
  - simpl. destruct (sqlite3_step_trace stmt w1) as (r2 & w2 & H2 & T2).
    rewrite (bind_Done _ _ _ _ _ H2).
    destruct (decide (r2 = SQLITE_ROW)) as [->|Hne2].
    + simpl. destruct (sqlite3_column_int_trace stmt 0 w2) as (v & w3 & H3 & T3).
      rewrite (bind_Done _ _ _ _ _ H3).
      destruct (reset_then_clear stmt w3 (v =? 1)) as (w4 & H4 & T4 & I4).
      exists (v =? 1), w4. split; [exact H4|]. split; [|intros _; exact I4].
      rewrite T4, T3, T2, T1. apply run_row.
    + assert (E : (if is_busy r2 then
                     sqlite3_reset stmt ;;; sqlite3_clear_bindings stmt ;;; ret false
                   else if negb (is_row r2) then
                     sqlite3_reset stmt ;;; sqlite3_clear_bindings stmt ;;; ret false
                   else
                     result <- sqlite3_column_int stmt 0 ;;
                     sqlite3_reset stmt ;;; sqlite3_clear_bindings stmt ;;;
                     ret (result =? 1))
                  = (sqlite3_reset stmt ;;; sqlite3_clear_bindings stmt ;;; ret false)).
      { destruct (is_busy r2); [reflexivity|].
        unfold is_row. rewrite bool_decide_eq_false_2 by exact Hne2. reflexivity. }
      rewrite E.
      destruct (reset_then_clear stmt w2 false) as (w3 & H3 & T3 & I3).
      exists false, w3. split; [exact H3|]. split; [|intros _; exact I3].
      rewrite T3, T2, T1. apply run_no_row. exact Hne2.
  - unfold is_ok. rewrite bool_decide_eq_false_2 by exact Hne1. simpl.
    exists false, w1. split; [reflexivity|]. split.
    + rewrite T1. apply run_bind_failed. exact Hne1.
    + intros (t' & Ht). rewrite T1 in Ht. discriminate.
Qed.


Lemma domain_in_list_discipline_witness :
  gravityDB_opened (vars opened) = true /\
  exists b w',
    domain_in_list "mail.google.de" (Some 0%nat) "auditlist" opened = Done b w' /\
    lookup_run "mail.google.de" (Some 0%nat) (trace (sqlite opened)) (trace (sqlite w')) b /\
    (reset_and_cleared (Some 0%nat) (trace (sqlite w')) -> idle (sqlite w') (Some 0%nat)).
Proof.
  split; [reflexivity|].
  apply (domain_in_list_discipline "mail.google.de" (Some 0%nat) "auditlist" opened).
  reflexivity.
Defined.

(** C4 as stated fails: when the bind fails, here because the engine is
    out of memory, [domain_in_list] returns false with the bind as its
    last engine call; the statement is neither reset nor are its bindings
    cleared. *)
Lemma domain_in_list_failed_bind_skips_reset :
  exists w',
    domain_in_list "ads.example" (Some 0%nat) "auditlist" opened_low_memory
      = Done false w' /\
    trace (sqlite w')
      = EvBindText (Some 0%nat) "ads.example" SQLITE_NOMEM
          :: trace (sqlite opened_low_memory) /\
    ~ reset_and_cleared (Some 0%nat) (trace (sqlite w')).
Proof.
  eexists. split; [vm_compute; reflexivity|]. split; [reflexivity|].
  intros (t' & H). vm_compute in H. discriminate.
Qed.

(** ** Engine calls on a healthy store *)

(** Decide the result-code and NULL tests whose argument is known. *)
Ltac settle_test t :=
  let b := eval vm_compute in t in
  lazymatch b with
  | true => change t with true
  | false => change t with false
  end.

Ltac settle_tests :=
  repeat match goal with
         | |- context [is_ok ?r] => settle_test (is_ok r)
         | |- context [is_row ?r] => settle_test (is_row r)
         | |- context [is_done ?r] => settle_test (is_done r)
         | |- context [is_busy ?r] => settle_test (is_busy r)
         | |- context [@is_null ?A ?p] => settle_test (@is_null A p)
         end;
  cbn [negb andb orb fst snd]; cbv iota.

Lemma consult_none w : faults (sqlite w) = [] -> consult w = Done None w.
Proof. unfold consult. intros ->. reflexivity. Qed.

Lemma find_stmt_store w n x st :
  stmts (sqlite w) !! n = Some x ->
  find_stmt (sqlite (store n (Some st) w)) (Some n) = Some (n, st).
Proof. intros H. simpl. exact (find_stmt_stored _ _ _ _ H). Qed.

Lemma sqlite3_bind_text_ok w h n st t :
  faults (sqlite w) = [] ->
  find_stmt (sqlite w) h = Some (n, st) ->
  has_parameter (text st) = true ->
  pending st = None ->
  sqlite3_bind_text h t w
  = Done SQLITE_OK
      (log (EvBindText h t SQLITE_OK)
         (store n (Some {| text := text st; bound := Some t;
                           pending := pending st; current := current st |}) w)).
Proof.
  intros Hf Hs Hp Hi. unfold sqlite3_bind_text.
  rewrite (bind_Done _ _ _ _ _ (consult_none w Hf)).
  unfold bind, ret, put_stmt, modify, emit. rewrite Hs, Hp, Hi. reflexivity.
Qed.

Lemma sqlite3_step_first w h n st :
  faults (sqlite w) = [] ->
  find_stmt (sqlite w) h = Some (n, st) ->
  pending st = None ->
  sqlite3_step h w
  = match run_query (db (sqlite w)) (text st) (bound st) with
    | [] =>
        Done SQLITE_DONE
          (log (EvStep h SQLITE_DONE)
             (store n (Some {| text := text st; bound := bound st;
                               pending := None; current := None |}) w))
    | row :: rest =>
        Done SQLITE_ROW
          (log (EvStep h SQLITE_ROW)
             (store n (Some {| text := text st; bound := bound st;
                               pending := Some rest; current := Some row |}) w))
    end.
Proof.
  intros Hf Hs Hi. unfold sqlite3_step.
  rewrite (bind_Done _ _ _ _ _ (consult_none w Hf)).
  unfold bind, ret, put_stmt, modify, emit. rewrite Hs, Hi.
  destruct (run_query _ _ _); reflexivity.
Qed.

Lemma sqlite3_column_int_current w h n st row i :
  find_stmt (sqlite w) h = Some (n, st) ->
  current st = Some row ->
  sqlite3_column_int h i w
  = Done (int_of (default VNull (row !! i)))
         (log (EvColumnInt h (int_of (default VNull (row !! i)))) w).
Proof.
  intros Hs Hc. unfold sqlite3_column_int, column. rewrite Hs, Hc. reflexivity.
Qed.

Lemma sqlite3_column_text_current w h n st row i :
  find_stmt (sqlite w) h = Some (n, st) ->
  current st = Some row ->
  sqlite3_column_text h i w
  = Done (text_of (default VNull (row !! i)))
         (log (EvColumnText h (text_of (default VNull (row !! i)))) w).
Proof.
  intros Hs Hc. unfold sqlite3_column_text, column. rewrite Hs, Hc. reflexivity.
Qed.

Lemma sqlite3_reset_stmt w h n st :
  find_stmt (sqlite w) h = Some (n, st) ->
  sqlite3_reset h w
  = Done tt (log (EvReset h)
               (store n (Some {| text := text st; bound := bound st;
                                 pending := None; current := None |}) w)).
Proof. intros Hs. unfold sqlite3_reset. rewrite Hs. reflexivity. Qed.

Lemma sqlite3_clear_bindings_stmt w h n st :
  find_stmt (sqlite w) h = Some (n, st) ->
  sqlite3_clear_bindings h w
  = Done tt (log (EvClearBindings h)
               (store n (Some {| text := text st; bound := None;
                                 pending := pending st; current := current st |}) w)).
Proof. intros Hs. unfold sqlite3_clear_bindings. rewrite Hs. reflexivity. Qed.

Lemma sqlite3_finalize_stmt w h n st :
  find_stmt (sqlite w) h = Some (n, st) ->
  sqlite3_finalize h w = Done tt (log (EvFinalize h) (store n None w)).
Proof. intros Hs. unfold sqlite3_finalize. rewrite Hs. reflexivity. Qed.

Lemma to_int_flag b : to_int (Z_of_bool b) = Z_of_bool b.
Proof. destruct b; reflexivity. Qed.

Lemma flag_is_one b : (Z_of_bool b =? 1) = b.
Proof. destruct b; reflexivity. Qed.

(** A lookup on an idle statement of a healthy store whose query yields
    the single row holding the flag [b]. *)
Lemma domain_in_list_healthy w h q domain listname b :
  healthy w ->
  ready_stmt (sqlite w) h q ->
  has_parameter q = true ->
  run_query (db (sqlite w)) q (Some domain) = [[VInt (Z_of_bool b)]] ->
  domain_in_list domain (Some h) listname w
  = Done b (looked_up (Some h) h q domain (Z_of_bool b) w).
Proof.
  intros (Ho & Hf & _) (st & Hst & Hq & Hi) Hp Hrun. subst q.
  assert (Hfind : find_stmt (sqlite w) (Some h) = Some (h, st))
    by (unfold find_stmt; rewrite Hst; reflexivity).
  unfold domain_in_list, db_unavailable.
  unfold var at 1. unfold bind at 1 2. rewrite Ho. unfold ret at 1.
  rewrite (bind_Done _ _ _ _ _ (sqlite3_bind_text_ok w _ _ _ domain Hf Hfind Hp Hi)).
  settle_tests.
  set (st1 := {| text := text st; bound := Some domain;
                 pending := pending st; current := current st |}).
  set (w1 := log _ (store h (Some st1) w)).
  assert (Hfind1 : find_stmt (sqlite w1) (Some h) = Some (h, st1))
    by exact (find_stmt_store w h _ st1 Hst).
  assert (Hstep := sqlite3_step_first w1 (Some h) h st1 Hf Hfind1 Hi).
  simpl in Hstep. rewrite Hrun in Hstep.
  rewrite (bind_Done _ _ _ _ _ Hstep). settle_tests.
  set (st2 := {| text := text st; bound := Some domain;
                 pending := Some []; current := Some [VInt (Z_of_bool b)] |}).
  set (w2 := log _ (store h (Some st2) w1)).
  assert (Hfind2 : find_stmt (sqlite w2) (Some h) = Some (h, st2)).
  { apply (find_stmt_store w1 h (Some st1) st2). simpl.
    apply list_lookup_insert_eq. apply lookup_lt_Some in Hst. exact Hst. }
  rewrite (bind_Done _ _ _ _ _
             (sqlite3_column_int_current w2 (Some h) h st2 _ 0%nat Hfind2 eq_refl)).
  simpl default. simpl int_of. rewrite to_int_flag.
  set (w3 := log _ w2).
  rewrite (bind_Done _ _ _ _ _ (sqlite3_reset_stmt w3 (Some h) h st2 Hfind2)).
  set (st3 := {| text := text st2; bound := bound st2; pending := None; current := None |}).
  set (w4 := log _ (store h (Some st3) w3)).
  assert (Hfind4 : find_stmt (sqlite w4) (Some h) = Some (h, st3)).
  { apply (find_stmt_store w3 h (Some st2) st3). simpl.
    rewrite list_lookup_insert_eq; [reflexivity|].
    rewrite length_insert. apply lookup_lt_Some in Hst. exact Hst. }
  rewrite (bind_Done _ _ _ _ _ (sqlite3_clear_bindings_stmt w4 (Some h) h st3 Hfind4)).
  unfold ret. rewrite flag_is_one. f_equal.
  unfold looked_up, w4, w3, w2, w1, log, store, upd_sqlite, fresh_stmt. simpl.
  rewrite !list_insert_insert_eq. reflexivity.
Qed.


(** ** No fork pending *)

Lemma gravityDB_check_fork_settled w :
  same_process w -> gravityDB_check_fork w = Done tt (memorize w).
Proof.
  intros Hs. unfold gravityDB_check_fork, memorize, var, sysread, on_vars, modify, bind, ret.
  destruct (main_process (vars w) =? 0) eqn:E; simpl.
  - rewrite Z.eqb_refl. reflexivity.
  - destruct Hs as [Hs|Hs].
    + apply Z.eqb_neq in E. contradiction.
    + rewrite Hs, Z.eqb_refl. reflexivity.
Qed.

Lemma memorize_sqlite w : sqlite (memorize w) = sqlite w.
Proof. unfold memorize. destruct (_ =? _); reflexivity. Qed.

Lemma memorize_sys w : sys (memorize w) = sys w.
Proof. unfold memorize. destruct (_ =? _); reflexivity. Qed.

Lemma memorize_vars {A} (f : globals -> A) w :
  (forall x g, f (set_this_process x g) = f g) ->
  (forall x g, f (set_main_process x g) = f g) ->
  f (vars (memorize w)) = f (vars w).
Proof.
  intros H1 H2. unfold memorize. destruct (_ =? _); [|reflexivity].
  simpl. rewrite H1, H2. reflexivity.
Qed.

Lemma memorize_healthy w : healthy w -> healthy (memorize w).
Proof.
  unfold healthy. rewrite memorize_sqlite.
  rewrite (memorize_vars gravityDB_opened), (memorize_vars gravity_db) by reflexivity.
  auto.
Qed.

Lemma memorize_same_process w : same_process w -> same_process (memorize w).
Proof.
  intros H. unfold same_process, memorize.
  destruct (main_process (vars w) =? 0) eqn:E; simpl.
  - right. reflexivity.
  - destruct H as [H|H]; [apply Z.eqb_neq in E; contradiction | right; exact H].
Qed.

(** On a change of the process identity the inherited connection and
    vectors are dropped by plain assignment: no engine call is made on
    them before [gravityDB_open] runs. *)
Lemma gravityDB_check_fork_drops w :
  main_process (vars w) <> 0 -> this_process (vars w) <> getpid (sys w) ->
  gravityDB_check_fork w = (gravityDB_open ;;; ret tt) (dropped w) /\
  sqlite (dropped w) = sqlite w.
Proof.
  intros Hm Ht. split; [|reflexivity].
  unfold gravityDB_check_fork, var, sysread, on_vars, modify.
  unfold bind at 1 2. apply Z.eqb_neq in Hm. rewrite Hm.
  unfold ret at 1. unfold bind at 1 2 3.
  apply Z.eqb_neq in Ht. rewrite Ht. reflexivity.
Qed.

(** ** [in_auditlist] *)

Lemma in_auditlist_healthy w h domain :
  healthy w -> same_process w ->
  auditlist_stmt (vars w) = Some h ->
  ready_stmt (sqlite w) h SqlAudit ->
  let b := existsb (audit_row_matches domain) (domain_audit (db (sqlite w))) in
  in_auditlist domain w
  = Done b (looked_up (Some h) h SqlAudit domain (Z_of_bool b) (memorize w)).
Proof.
  intros Hh Hs Ha Hr b. unfold in_auditlist.
  rewrite (bind_Done _ _ _ _ _ (gravityDB_check_fork_settled w Hs)).
  unfold var at 1. unfold bind at 1.
  rewrite (memorize_vars auditlist_stmt) by reflexivity. rewrite Ha.
  settle_tests.
  apply domain_in_list_healthy.
  - apply memorize_healthy. exact Hh.
  - rewrite memorize_sqlite. exact Hr.
  - reflexivity.
  - rewrite memorize_sqlite. reflexivity.
Qed.

(** C9: on a healthy open store whose audit statement is ready,
    [in_auditlist] answers by the three-form wildcard rule: a stored
    ["*.google.de"] matches ["mail.google.de"] and, when it is the only
    pattern, not ["google.de"]; a sole stored ["google.de"] does not
    match ["abcgoogle.de"]; a stored ["*google.de"] matches
    ["abcgoogle.de"]. *)
Theorem in_auditlist_wildcard_forms w h :
  healthy w -> same_process w ->
  auditlist_stmt (vars w) = Some h ->
  ready_stmt (sqlite w) h SqlAudit ->
  ("*.google.de" ∈ domain_audit (db (sqlite w)) ->
     result (in_auditlist "mail.google.de") w = Some true) /\
  (domain_audit (db (sqlite w)) = ["*.google.de"] ->
     result (in_auditlist "google.de") w = Some false) /\
  (domain_audit (db (sqlite w)) = ["google.de"] ->
     result (in_auditlist "abcgoogle.de") w = Some false) /\
  ("*google.de" ∈ domain_audit (db (sqlite w)) ->
     result (in_auditlist "abcgoogle.de") w = Some true).
Proof.
  intros Hh Hs Ha Hr. unfold result.
  repeat split; intros Hd;
    rewrite (in_auditlist_healthy w h _ Hh Hs Ha Hr); f_equal.
  - apply existsb_exists. exists "*.google.de".
    split; [apply list_elem_of_In; exact Hd | reflexivity].
  - rewrite Hd. reflexivity.
  - rewrite Hd. reflexivity.
  - apply existsb_exists. exists "*google.de".
    split; [apply list_elem_of_In; exact Hd | reflexivity].
Qed.

Lemma in_auditlist_wildcard_forms_witness :
  healthy opened /\ same_process opened /\
  auditlist_stmt (vars opened) = Some 0%nat /\
  ready_stmt (sqlite opened) 0 SqlAudit /\
  result (in_auditlist "mail.google.de") opened = Some true /\
  result (in_auditlist "google.de") opened = Some false.
Proof.
  assert (Hh : healthy opened) by (repeat split; reflexivity).
  assert (Hs : same_process opened) by (left; reflexivity).
  assert (Hr : ready_stmt (sqlite opened) 0 SqlAudit)
    by (eexists; repeat split; reflexivity).
  destruct (in_auditlist_wildcard_forms opened 0%nat Hh Hs eq_refl Hr)
    as (H1 & H2 & _ & _).
  split; [exact Hh|]. split; [exact Hs|]. split; [reflexivity|].
  split; [exact Hr|]. split.
  - apply H1. apply elem_of_cons. left. reflexivity.
  - apply H2. reflexivity.
Defined.


(** ** Group resolution *)

Lemma db_unavailable_opened w :
  gravityDB_opened (vars w) = true -> db_unavailable w = Done false w.
Proof. intros H. unfold db_unavailable, var, bind, ret. rewrite H. reflexivity. Qed.

Lemma sqlite3_prepare_v2_ok w c q :
  faults (sqlite w) = [] ->
  live_conn (sqlite w) c = true ->
  compiles (db (sqlite w)) q = true ->
  sqlite3_prepare_v2 c q w
  = Done (SQLITE_OK, Some (List.length (stmts (sqlite w))))
         (log (EvPrepare c q SQLITE_OK) (append_stmt (fresh_stmt q) w)).
Proof.
  intros Hf Hc Hq. unfold sqlite3_prepare_v2.
  rewrite (bind_Done _ _ _ _ _ (consult_none w Hf)).
  unfold bind, ret, modify, emit. rewrite Hc, Hq. reflexivity.
Qed.

Lemma lookup_at_end {A} (l : list A) x : (l ++ [x])%list !! List.length l = Some x.
Proof. rewrite lookup_app_r by lia. rewrite Nat.sub_diag. reflexivity. Qed.

Lemma insert_at_end {A} (l : list A) x y :
  <[List.length l := y]> (l ++ [x])%list = (l ++ [y])%list.
Proof.
  rewrite insert_app_r_alt by lia. rewrite Nat.sub_diag. reflexivity.
Qed.

Lemma to_int_small z : 0 <= z < 2 ^ 31 -> to_int z = z.
Proof. intros H. unfold to_int. rewrite Z.mod_small by lia. lia. Qed.

(** Reading a variable, the surroundings or the engine after updates. *)
Ltac reads :=
  cbn [vars sys sqlite upd_vars upd_sqlite log store append_stmt
       whitelist_stmt gravity_stmt blacklist_stmt gravity_db table_stmt
       auditlist_stmt gravityDB_opened main_process this_process
       set_whitelist_stmt set_gravity_stmt set_blacklist_stmt set_gravity_db
       set_table_stmt set_auditlist_stmt set_gravityDB_opened set_main_process
       set_this_process vec_ptr set_vec_ptr
       db conns stmts faults trace set_conns set_stmts set_faults set_trace
       getpid gravity_db_exists counters_clients match_regex DATABASE_BUSY_TIMEOUT].

(** One step of a run: a read, a write or a return at the head. *)
Ltac step_pure :=
  repeat (progress (cbn [bind ret var sysread on_vars on_sqlite modify emit put_stmt
                         fst snd];
                    settle_tests)).

Lemma gravityDB_finalizeTable_stmt w h st :
  gravityDB_opened (vars w) = true ->
  table_stmt (vars w) = Some h ->
  stmts (sqlite w) !! h = Some (Some st) ->
  gravityDB_finalizeTable w
  = Done tt (upd_vars (set_table_stmt None) (log (EvFinalize (Some h)) (store h None w))).
Proof.
  intros Ho Ht Hs. unfold gravityDB_finalizeTable. step_pure. rewrite Ho.
  step_pure. rewrite Ht.
  assert (Hfind : find_stmt (sqlite w) (Some h) = Some (h, st))
    by (unfold find_stmt; rewrite Hs; reflexivity).
  rewrite (bind_Done _ _ _ _ _ (sqlite3_finalize_stmt w (Some h) h st Hfind)).
  reflexivity.
Qed.

Lemma bind_assoc {S A B C} (c : comp S A) (k1 : A -> comp S B) (k2 : B -> comp S C) s :
  bind (bind c k1) k2 s = bind c (fun a => bind (k1 a) k2) s.
Proof. unfold bind. destruct (c s); reflexivity. Qed.

(** Name the world the remaining run starts in. *)
Ltac here x := match goal with |- context [bind _ _ ?W] => set (x := W) end.

Lemma matching_clients_small d ip :
  Z.of_nat (List.length (GravityDB.client d)) < 2 ^ 31 ->
  to_int (Z.of_nat (List.length (matching_clients d ip)))
  = Z.of_nat (List.length (matching_clients d ip)).
Proof.
  intros H. apply to_int_small. unfold matching_clients.
  pose proof (length_filter (fun c => subnet_match d c.2 ip = true) (GravityDB.client d)).
  lia.
Qed.

Lemma engine_only_intro w w' k :
  sys w' = sys w ->
  db (sqlite w') = db (sqlite w) ->
  conns (sqlite w') = conns (sqlite w) ->
  faults (sqlite w') = faults (sqlite w) ->
  stmts (sqlite w') = (stmts (sqlite w) ++ replicate k None)%list ->
  regex_calls (trace (sqlite w')) = regex_calls (trace (sqlite w)) ->
  vars w' = set_table_stmt None (vars w) ->
  engine_only w w'.
Proof. unfold engine_only. intros. repeat split; eauto. Qed.

Lemma get_client_groupids_healthy w client :
  healthy w ->
  Z.of_nat (List.length (GravityDB.client (db (sqlite w)))) < 2 ^ 31 ->
  exists w',
    get_client_groupids client w
    = Done (true, Some (resolveGroups (db (sqlite w)) (ip_of client))) w' /\
    engine_only w w'.
Proof.
  intros (Ho & Hf & Hc) Hsize. unfold get_client_groupids.
  rewrite (bind_Done _ _ _ _ _ (db_unavailable_opened w Ho)). cbv iota.
  step_pure.
  rewrite (bind_Done _ _ _ _ _
             (sqlite3_prepare_v2_ok w _ (SqlClientCount (ip_of client)) Hf Hc eq_refl)).
  step_pure. reads.
  set (h1 := List.length (stmts (sqlite w))).
  set (q1 := SqlClientCount (ip_of client)).
  here w1.
  assert (Hfind1 : find_stmt (sqlite w1) (Some h1) = Some (h1, fresh_stmt q1))
    by (unfold find_stmt; simpl; unfold h1; rewrite lookup_at_end; reflexivity).
  assert (Hstep := sqlite3_step_first w1 (Some h1) h1 _ Hf Hfind1 eq_refl).
  cbn [run_query db sqlite w1 text fresh_stmt bound q1] in Hstep.
  rewrite (bind_Done _ _ _ _ _ Hstep). clear Hstep.
  step_pure. rewrite bind_assoc.
  match goal with |- context [store h1 (Some ?s) w1] => set (st1 := s) end.
  here w2.
  assert (Hfind2 : find_stmt (sqlite w2) (Some h1) = Some (h1, st1)).
  { unfold find_stmt. simpl. unfold h1.
    rewrite list_lookup_insert_eq by (rewrite length_app; simpl; lia). reflexivity. }
  rewrite (bind_Done _ _ _ _ _
             (sqlite3_column_int_current w2 (Some h1) h1 st1 _ 0%nat Hfind2 eq_refl)).
  cbn [lookup list_lookup default from_option id int_of].
  simpl (sqlite w1). cbn [db set_trace set_stmts].
  rewrite (matching_clients_small _ _ Hsize).
  step_pure. here w3.
  assert (Hfin : gravityDB_finalizeTable w3
                 = Done tt (upd_vars (set_table_stmt None)
                              (log (EvFinalize (Some h1)) (store h1 None w3)))).
  { apply (gravityDB_finalizeTable_stmt w3 h1 st1); [exact Ho | reflexivity |].
    simpl. unfold h1.
    rewrite list_lookup_insert_eq by (rewrite length_app; simpl; lia). reflexivity. }
  rewrite (bind_Done _ _ _ _ _ Hfin). clear Hfin.
  unfold resolveGroups.
  destruct (matching_clients (db (sqlite w)) (ip_of client)) as [|c rest] eqn:Hm.
  - (* no client record matches *)
    cbn [List.length Z.of_nat Z.eqb]. step_pure.
    eexists. split; [reflexivity|].
    apply (engine_only_intro _ _ 1); try reflexivity.
    simpl. unfold h1. rewrite list_insert_insert_eq, insert_at_end. reflexivity.
  - (* a record matches: ask for its groups *)
    replace (Z.of_nat (List.length (c :: rest)) =? 0) with false
      by (symmetry; apply Z.eqb_neq; simpl List.length; lia).
    step_pure. reads. here w4.
    assert (Hs4 : stmts (sqlite w4) = (stmts (sqlite w) ++ [None])%list).
    { simpl. unfold h1. rewrite list_insert_insert_eq, insert_at_end. reflexivity. }
    assert (Hf4 : faults (sqlite w4) = []) by exact Hf.
    assert (Hc4 : live_conn (sqlite w4) (gravity_db (vars w)) = true) by exact Hc.
    rewrite (bind_Done _ _ _ _ _
               (sqlite3_prepare_v2_ok w4 _ (SqlClientGroups (ip_of client)) Hf4 Hc4 eq_refl)).
    step_pure. reads.
    set (q2 := SqlClientGroups (ip_of client)).
    match goal with |- context [Some (List.length ?l)] => set (h2 := List.length l) end.
    here w5.
    assert (Hfind5 : find_stmt (sqlite w5) (Some h2) = Some (h2, fresh_stmt q2))
      by (unfold find_stmt; simpl; unfold h2; rewrite lookup_at_end; reflexivity).
    assert (Hstep := sqlite3_step_first w5 (Some h2) h2 _ Hf Hfind5 eq_refl).
    cbn [run_query text fresh_stmt bound q2] in Hstep.
    simpl (db (sqlite w5)) in Hstep. rewrite Hm in Hstep.
    set (cgs := filter (fun cg => cg.1 = c.1) (client_by_group (db (sqlite w)))) in *.
    match type of Hstep with
    | _ = match ?m with _ => _ end =>
        assert (Hrow : exists v, m = [[v]] /\
                  default EmptyString (text_of v)
                  = concat_comma (map (fun cg => show_int cg.2) cgs))
          by (destruct cgs; eexists; split; reflexivity)
    end.
    destruct Hrow as (v & Hv & Htext). rewrite Hv in Hstep. clear Hv.
    rewrite (bind_Done _ _ _ _ _ Hstep). clear Hstep.
    step_pure.
    match goal with |- context [store h2 (Some ?s) w5] => set (st5 := s) end.
    here w6.
    assert (Hfind6 : find_stmt (sqlite w6) (Some h2) = Some (h2, st5)).
    { unfold find_stmt. simpl. unfold h2.
      rewrite list_lookup_insert_eq by (rewrite length_app; simpl; lia). reflexivity. }
    rewrite (bind_Done _ _ _ _ _
               (sqlite3_column_text_current w6 (Some h2) h2 st5 _ 0%nat Hfind6 eq_refl)).
    cbn [lookup list_lookup]. step_pure.
    here w7.
    assert (Hfin : gravityDB_finalizeTable w7
                   = Done tt (upd_vars (set_table_stmt None)
                                (log (EvFinalize (Some h2)) (store h2 None w7)))).
    { apply (gravityDB_finalizeTable_stmt w7 h2 st5); [exact Ho | reflexivity |].
      simpl. unfold h2.
      rewrite list_lookup_insert_eq by (rewrite length_app; simpl; lia). reflexivity. }
    rewrite (bind_Done _ _ _ _ _ Hfin). clear Hfin.
    eexists. split.
    + unfold ret. change (default VNull (Some v)) with v. rewrite Htext. reflexivity.
    + apply (engine_only_intro _ _ 2); try reflexivity.
      change (stmts (sqlite (upd_vars (set_table_stmt None)
                               (log (EvFinalize (Some h2)) (store h2 None w7)))))
        with (<[h2 := None]> (<[h2 := Some st5]> (stmts (sqlite w4) ++ [Some (fresh_stmt q2)]))).
      unfold h2. rewrite list_insert_insert_eq, insert_at_end, Hs4, <- app_assoc.
      reflexivity.
Qed.


(** ** Counting *)

(** The query [gravityDB_count] runs for a known list class and the value
    the engine holds for it. *)
Lemma known_table_compiles d list :
  (list < UNKNOWN_TABLE)%N ->
  compiles d (if negb (list =? GRAVITY_TABLE)%N then SqlCountDistinct (tablename list)
              else SqlGravityCount) = true.
Proof.
  unfold UNKNOWN_TABLE. intros H.
  assert (Hc : list = 0%N \/ list = 1%N \/ list = 2%N \/ list = 3%N \/ list = 4%N) by lia.
  destruct Hc as [->|[->|[->|[->| ->]]]]; reflexivity.
Qed.

(** On a healthy store a known list class is counted by one query: the
    stored [gravity_count] for the gravity class, [COUNT(DISTINCT domain)]
    on the view for any other class; the value of its single row is
    returned. *)
Lemma gravityDB_count_healthy DB_FAILED w list row rest :
  healthy w ->
  (list < UNKNOWN_TABLE)%N ->
  let q := if negb (list =? GRAVITY_TABLE)%N then SqlCountDistinct (tablename list)
           else SqlGravityCount in
  run_query (db (sqlite w)) q None = row :: rest ->
  let h := Some (List.length (stmts (sqlite w))) in
  let r := int_of (default VNull (row !! 0%nat)) in
  exists w',
    gravityDB_count DB_FAILED list w = Done r w' /\
    trace (sqlite w')
    = EvFinalize h :: EvColumnInt h r :: EvStep h SQLITE_ROW
        :: EvPrepare (gravity_db (vars w)) q SQLITE_OK :: trace (sqlite w).
Proof.
  intros (Ho & Hf & Hc) Hl q Hrun h r. unfold gravityDB_count.
  rewrite (bind_Done _ _ _ _ _ (db_unavailable_opened w Ho)). cbv iota.
  replace (UNKNOWN_TABLE <=? list)%N with false by (symmetry; apply N.leb_gt; exact Hl).
  step_pure. fold q.
  rewrite (bind_Done _ _ _ _ _
             (sqlite3_prepare_v2_ok w _ q Hf Hc (known_table_compiles _ list Hl))).
  step_pure. reads. here w1.
  set (n := List.length (stmts (sqlite w))).
  assert (Hfind1 : find_stmt (sqlite w1) (Some n) = Some (n, fresh_stmt q))
    by (unfold find_stmt; simpl; unfold n; rewrite lookup_at_end; reflexivity).
  assert (Hstep := sqlite3_step_first w1 (Some n) n _ Hf Hfind1 eq_refl).
  change (run_query (db (sqlite w1)) (text (fresh_stmt q)) (bound (fresh_stmt q)))
    with (run_query (db (sqlite w)) q None) in Hstep.
  rewrite Hrun in Hstep. rewrite (bind_Done _ _ _ _ _ Hstep). clear Hstep.
  step_pure.
  match goal with |- context [store n (Some ?s) w1] => set (st1 := s) end.
  here w2.
  assert (Hfind2 : find_stmt (sqlite w2) (Some n) = Some (n, st1)).
  { unfold find_stmt. simpl. unfold n.
    rewrite list_lookup_insert_eq by (rewrite length_app; simpl; lia). reflexivity. }
  rewrite (bind_Done _ _ _ _ _
             (sqlite3_column_int_current w2 (Some n) n st1 _ 0%nat Hfind2 eq_refl)).
  fold r. step_pure. here w3.
  assert (Hfin : gravityDB_finalizeTable w3
                 = Done tt (upd_vars (set_table_stmt None)
                              (log (EvFinalize (Some n)) (store n None w3)))).
  { apply (gravityDB_finalizeTable_stmt w3 n st1); [exact Ho | reflexivity |].
    simpl. unfold n.
    rewrite list_lookup_insert_eq by (rewrite length_app; simpl; lia). reflexivity. }
  rewrite (bind_Done _ _ _ _ _ Hfin). clear Hfin.
  eexists. split; reflexivity.
Qed.

(** ** Integer lists in SQL text *)

Lemma no_comma_cons c s : c <> ","%char -> no_comma s -> no_comma (String c s).
Proof. intros Hc Hs x [<-|Hx]; [exact Hc | exact (Hs x Hx)]. Qed.

Lemma no_comma_nil : no_comma EmptyString.
Proof. intros c []. Qed.

Lemma string_of_uint_no_comma d : no_comma (NilEmpty.string_of_uint d).
Proof.
  induction d; simpl; try apply no_comma_nil;
    apply no_comma_cons; (discriminate || assumption).
Qed.

Lemma show_int_no_comma z : no_comma (show_int z).
Proof.
  unfold show_int, NilZero.string_of_int, NilZero.string_of_uint.
  destruct (Z.to_int z) as [d|d]; destruct d;
    repeat (apply no_comma_cons; [discriminate|]);
    try apply no_comma_nil; try apply string_of_uint_no_comma.
Qed.

Lemma show_int_nonempty z : show_int z <> EmptyString.
Proof.
  unfold show_int, NilZero.string_of_int, NilZero.string_of_uint.
  destruct (Z.to_int z) as [d|d]; destruct d; discriminate.
Qed.

Lemma read_int_show_int z : read_int (show_int z) = Some z.
Proof.
  unfold read_int, show_int. rewrite NilZero.isi.
  - simpl. rewrite DecimalZ.of_to. reflexivity.
  - destruct z as [|p|p]; simpl; try discriminate.
    intros H. inversion H as [H']. exact (DecimalPos.Unsigned.to_uint_nonnil p H').
  - destruct z as [|p|p]; simpl; try discriminate.
    intros H. inversion H as [H']. exact (DecimalPos.Unsigned.to_uint_nonnil p H').
Qed.


Lemma split_comma_no_comma a : no_comma a -> split_comma a = [a].
Proof.
  induction a as [|c a IH]; intros H; [reflexivity|]. simpl.
  destruct (Ascii.eqb_spec c ","%char) as [->|Hne].
  - exfalso. apply (H ","%char); [left|]; reflexivity.
  - rewrite IH; [reflexivity|]. intros x Hx. apply H. right. exact Hx.
Qed.

Lemma split_comma_app a r :
  no_comma a -> split_comma (a +:+ "," +:+ r) = a :: split_comma r.
Proof.
  induction a as [|c a IH]; intros H; [reflexivity|]. simpl.
  destruct (Ascii.eqb_spec c ","%char) as [->|Hne].
  - exfalso. apply (H ","%char); [left|]; reflexivity.
  - simpl in IH. rewrite IH; [reflexivity|]. intros x Hx. apply H. right. exact Hx.
Qed.

Lemma split_concat_comma l :
  l <> [] -> Forall no_comma l -> split_comma (concat_comma l) = l.
Proof.
  induction l as [|x [|y r] IH]; intros Hne Hall; [congruence| |].
  - simpl. apply split_comma_no_comma. inversion Hall; assumption.
  - change (concat_comma (x :: y :: r)) with (x +:+ "," +:+ concat_comma (y :: r)).
    inversion Hall; subst. rewrite split_comma_app by assumption.
    rewrite IH; [reflexivity | discriminate | assumption].
Qed.

Lemma concat_comma_nonempty x l : x <> EmptyString -> concat_comma (x :: l) <> EmptyString.
Proof. destruct x; [congruence|]. destruct l; discriminate. Qed.

Lemma mapM_read_int_show_int zs : mapM read_int (map show_int zs) = Some zs.
Proof.
  induction zs as [|z zs IH]; [reflexivity|]. simpl.
  rewrite read_int_show_int. simpl. rewrite IH. reflexivity.
Qed.

(** What [GROUP_CONCAT] prints, [IN (...)] reads back. *)
Lemma parse_groups_concat_comma zs :
  parse_groups (concat_comma (map show_int zs)) = Some zs.
Proof.
  destruct zs as [|z zs]; [reflexivity|]. unfold parse_groups.
  destruct (String.eqb_spec (concat_comma (map show_int (z :: zs))) EmptyString) as [E|_].
  - exfalso. exact (concat_comma_nonempty _ _ (show_int_nonempty z) E).
  - rewrite split_concat_comma.
    + apply mapM_read_int_show_int.
    + discriminate.
    + apply Forall_forall. intros s Hs. apply list_elem_of_In, in_map_iff in Hs.
      destruct Hs as (z' & <- & _). apply show_int_no_comma.
Qed.

Lemma parse_groups_resolveGroups d ip : is_Some (parse_groups (resolveGroups d ip)).
Proof.
  unfold resolveGroups. destruct (matching_clients d ip) as [|c rest].
  - eexists. reflexivity.
  - rewrite <- (map_map snd show_int). rewrite parse_groups_concat_comma. eexists. reflexivity.
Qed.


(** ** Runs that keep the store in good order *)

Lemma carries_intro w w' :
  (healthy w -> healthy w') ->
  (same_process w -> same_process w') ->
  sys w' = sys w ->
  db (sqlite w') = db (sqlite w) ->
  regex_calls (trace (sqlite w')) = regex_calls (trace (sqlite w)) ->
  (forall h q, ready_stmt (sqlite w) h q -> ready_stmt (sqlite w') h q) ->
  carries w w'.
Proof. unfold carries. auto 10. Qed.

Lemma carries_refl w : carries w w.
Proof. apply carries_intro; auto. Qed.

Lemma carries_trans w1 w2 w3 : carries w1 w2 -> carries w2 w3 -> carries w1 w3.
Proof.
  intros (A1 & A2 & A3 & A4 & A5 & A6) (B1 & B2 & B3 & B4 & B5 & B6).
  unfold carries. split; [auto|]. split; [auto|].
  split; [congruence|]. split; [congruence|]. split; [congruence|]. auto.
Qed.

Lemma healthy_transfer w w' :
  gravityDB_opened (vars w') = gravityDB_opened (vars w) ->
  gravity_db (vars w') = gravity_db (vars w) ->
  faults (sqlite w') = faults (sqlite w) ->
  conns (sqlite w') = conns (sqlite w) ->
  healthy w -> healthy w'.
Proof.
  unfold healthy, live_conn. intros -> -> -> ->. auto.
Qed.

Lemma same_process_transfer w w' :
  main_process (vars w') = main_process (vars w) ->
  this_process (vars w') = this_process (vars w) ->
  sys w' = sys w ->
  same_process w -> same_process w'.
Proof. unfold same_process. intros -> -> ->. auto. Qed.

Lemma engine_only_carries w w' :
  engine_only w w' ->
  carries w w' /\ forall n, vec_ptr n (vars w') = vec_ptr n (vars w).
Proof.
  intros (Hsys & Hdb & Hconns & Hfaults & (k & Hstmts) & Hregex & Hvars).
  split; [|intros n; rewrite Hvars; destruct n; reflexivity].
  apply carries_intro; auto.
  - apply healthy_transfer; auto; rewrite Hvars; reflexivity.
  - apply same_process_transfer; auto; rewrite Hvars; reflexivity.
  - intros h q (st & Hst & Hq & Hp). exists st. rewrite Hstmts.
    split; [apply lookup_app_l_Some; exact Hst | auto].
Qed.

Lemma memorize_carries w : same_process w -> carries w (memorize w).
Proof.
  intros Hs. apply carries_intro; rewrite ?memorize_sqlite, ?memorize_sys;
    auto using memorize_healthy, memorize_same_process.
Qed.

Lemma memorize_vec_ptr n w : vec_ptr n (vars (memorize w)) = vec_ptr n (vars w).
Proof. apply (memorize_vars (vec_ptr n)); intros x g; destruct n; reflexivity. Qed.

Lemma ready_stmt_text e h q q' : ready_stmt e h q -> ready_stmt e h q' -> q = q'.
Proof. intros (st & Hst & <- & _) (st' & Hst' & <- & _). congruence. Qed.

Lemma looked_up_carries w h q domain v :
  ready_stmt (sqlite w) h q ->
  carries w (looked_up (Some h) h q domain v w).
Proof.
  intros Hr. apply carries_intro; auto.
  intros h' q' Hr'. destruct (decide (h' = h)) as [->|Hne].
  - rewrite <- (ready_stmt_text _ _ _ _ Hr Hr'). destruct Hr as (st & Hst & _).
    exists (fresh_stmt q). simpl.
    rewrite list_lookup_insert_eq by (apply lookup_lt_Some in Hst; exact Hst). auto.
  - destruct Hr' as (st' & Hst' & Hq' & Hp'). exists st'. simpl.
    rewrite list_lookup_insert_ne by congruence. auto.
Qed.

Lemma prepared_carried w w' n clientID groups :
  carries w w' -> vec_ptr n (vars w') = vec_ptr n (vars w) ->
  prepared w n clientID groups -> prepared w' n clientID groups.
Proof.
  intros (_ & _ & _ & _ & _ & Hready) Hv (v & h & Hp & Hl & Hr).
  exists v, h. rewrite Hv. auto.
Qed.

(** ** Preparing a client's statements *)

Lemma vec_store_lookup v i x : vec_store v i x !! i = Some x.
Proof.
  unfold vec_store. case_bool_decide as H.
  - apply list_lookup_insert_eq. exact H.
  - rewrite lookup_app_r by lia.
    rewrite lookup_app_r by (rewrite length_replicate; lia).
    rewrite length_replicate. replace (i - List.length v - (i - List.length v))%nat with O by lia.
    reflexivity.
Qed.

Lemma vec_set_allocated w n v i x :
  vec_ptr n (vars w) = Some v ->
  vec_set n i x w = Done tt (upd_vars (set_vec_ptr n (Some (vec_store v i x))) w).
Proof. unfold vec_set, var, bind. intros ->. reflexivity. Qed.

Lemma vec_get_allocated w n v i :
  vec_ptr n (vars w) = Some v ->
  vec_get n i w = Done (default None (v !! i)) w.
Proof. unfold vec_get, var, bind. intros ->. reflexivity. Qed.

Lemma compiles_exists d n groups :
  is_Some (parse_groups groups) -> compiles d (SqlExists (view_of n) groups) = true.
Proof.
  intros H. unfold compiles. apply andb_true_intro. split; apply bool_decide_eq_true_2.
  - destruct n; eexists; reflexivity.
  - exact H.
Qed.

Lemma prepare_into_healthy w n groups clientID :
  healthy w -> vec_ptr n (vars w) <> None -> is_Some (parse_groups groups) ->
  exists w',
    prepare_into n (view_of n) (Some groups) clientID w = Done true w' /\
    carries w w' /\
    (forall n', n' <> n -> vec_ptr n' (vars w') = vec_ptr n' (vars w)) /\
    prepared w' n clientID groups.
Proof.
  intros Hh Hv Hg. pose proof Hh as (Ho & Hf & Hc).
  destruct (vec_ptr n (vars w)) as [v|] eqn:Ev; [clear Hv | congruence].
  unfold prepare_into. step_pure.
  rewrite (bind_Done _ _ _ _ _
             (sqlite3_prepare_v2_ok w _ (get_client_querystr (view_of n) (Some groups))
                Hf Hc (compiles_exists _ n groups Hg))).
  step_pure. here w1.
  rewrite (bind_Done _ _ _ _ _ (vec_set_allocated w1 n v clientID _ Ev)).
  step_pure. subst w1.
  eexists. split; [reflexivity|]. split; [|split].
  - apply carries_intro; auto.
    + apply healthy_transfer; try reflexivity; destruct n; reflexivity.
    + apply same_process_transfer; try reflexivity; destruct n; reflexivity.
    + intros h q (st & Hst & Hq & Hp). exists st. simpl.
      split; [apply lookup_app_l_Some; exact Hst | auto].
  - intros n' Hne. destruct n, n'; try congruence; reflexivity.
  - exists (vec_store v clientID (Some (List.length (stmts (sqlite w))))),
           (List.length (stmts (sqlite w))).
    split; [destruct n; reflexivity|]. split; [apply vec_store_lookup|].
    exists (fresh_stmt (SqlExists (view_of n) groups)). simpl.
    rewrite lookup_at_end. auto.
Qed.

Lemma gravityDB_prepare_client_statements_healthy w clientID client :
  healthy w -> vectors_allocated w ->
  Z.of_nat (List.length (GravityDB.client (db (sqlite w)))) < 2 ^ 31 ->
  exists w',
    gravityDB_prepare_client_statements clientID client w = Done true w' /\
    carries w w' /\
    forall n, prepared w' n clientID (resolveGroups (db (sqlite w)) (ip_of client)).
Proof.
  intros Hh Hv Hsize. pose proof Hh as (Ho & _).
  set (G := resolveGroups (db (sqlite w)) (ip_of client)).
  assert (HG : is_Some (parse_groups G)) by apply parse_groups_resolveGroups.
  unfold gravityDB_prepare_client_statements.
  rewrite (bind_Done _ _ _ _ _ (db_unavailable_opened w Ho)). cbv iota.
  destruct (get_client_groupids_healthy w client Hh Hsize) as (w1 & Hg & He).
  rewrite (bind_Done _ _ _ _ _ Hg). step_pure. fold G.
  destruct (engine_only_carries _ _ He) as (C1 & V1).
  assert (Hh1 : healthy w1) by (apply C1; exact Hh).
  destruct (prepare_into_healthy w1 Whitelist G clientID Hh1) as (w2 & H2 & C2 & V2 & P2);
    [rewrite V1; apply Hv | exact HG |].
  change "vw_whitelist" with (view_of Whitelist).
  rewrite (bind_Done _ _ _ _ _ H2). step_pure.
  assert (Hh2 : healthy w2) by (apply C2; exact Hh1).
  destruct (prepare_into_healthy w2 Gravity G clientID Hh2) as (w3 & H3 & C3 & V3 & P3);
    [rewrite V2 by discriminate; rewrite V1; apply Hv | exact HG |].
  change "vw_gravity" with (view_of Gravity).
  rewrite (bind_Done _ _ _ _ _ H3). step_pure.
  assert (Hh3 : healthy w3) by (apply C3; exact Hh2).
  destruct (prepare_into_healthy w3 Blacklist G clientID Hh3) as (w4 & H4 & C4 & V4 & P4);
    [rewrite V3 by discriminate; rewrite V2 by discriminate; rewrite V1; apply Hv
    | exact HG |].
  change "vw_blacklist" with (view_of Blacklist).
  rewrite (bind_Done _ _ _ _ _ H4). step_pure.
  exists w4. split; [reflexivity|]. split.
  - eauto using carries_trans.
  - intros [].
    + apply (prepared_carried w3 w4); [exact C4 | apply V4; discriminate|].
      apply (prepared_carried w2 w3); [exact C3 | apply V3; discriminate | exact P2].
    + apply (prepared_carried w3 w4); [exact C4 | apply V4; discriminate | exact P3].
    + exact P4.
Qed.


(** ** The membership predicates on a healthy store *)

Lemma in_whitelist_unfold domain clientID client :
  in_whitelist domain clientID client
  = with_client_statement Whitelist clientID client (fun stmt =>
      exact <- domain_in_list domain stmt "whitelist" ;;
      if exact then ret true
      else
        m <- call_match_regex domain clientID REGEX_WHITELIST ;;
        ret (negb (m =? -1))).
Proof. reflexivity. Qed.

Lemma in_gravity_unfold domain clientID client :
  in_gravity domain clientID client
  = with_client_statement Gravity clientID client (fun stmt =>
      domain_in_list domain stmt "gravity").
Proof. reflexivity. Qed.

Lemma in_blacklist_unfold domain clientID client :
  in_blacklist domain clientID client
  = with_client_statement Blacklist clientID client (fun stmt =>
      domain_in_list domain stmt "blacklist").
Proof. reflexivity. Qed.

Lemma run_query_exists d n groups domain :
  run_query d (SqlExists (view_of n) groups) (Some domain)
  = [[VInt (Z_of_bool (exact_match d n groups domain))]].
Proof.
  unfold run_query, exact_match.
  destruct (view d (view_of n)); destruct (parse_groups groups); reflexivity.
Qed.

(** A lookup through a ready statement of vector [n]. *)
Lemma domain_in_list_ready w n groups domain listname h :
  healthy w ->
  ready_stmt (sqlite w) h (SqlExists (view_of n) groups) ->
  exists w',
    domain_in_list domain (Some h) listname w
    = Done (exact_match (db (sqlite w)) n groups domain) w' /\
    carries w w' /\ vars w' = vars w.
Proof.
  intros Hh Hr. eexists. split; [|split].
  - apply (domain_in_list_healthy w h _ domain listname _ Hh Hr eq_refl).
    apply run_query_exists.
  - apply looked_up_carries. exact Hr.
  - reflexivity.
Qed.

(** With the client's statement in vector [n] prepared, the shared code
    hands that statement on. *)
Lemma with_client_statement_prepared w n clientID client groups :
  same_process w ->
  prepared w n clientID groups ->
  exists h,
    ready_stmt (sqlite (memorize w)) h (SqlExists (view_of n) groups) /\
    forall k, with_client_statement n clientID client k w = k (Some h) (memorize w).
Proof.
  intros Hs (v & h & Hv & Hl & Hr). exists h.
  split; [rewrite memorize_sqlite; exact Hr|].
  intros k. unfold with_client_statement.
  rewrite (bind_Done _ _ _ _ _ (gravityDB_check_fork_settled w Hs)).
  assert (Hv' : vec_ptr n (vars (memorize w)) = Some v)
    by (rewrite memorize_vec_ptr; exact Hv).
  rewrite (bind_Done _ _ _ _ _ (vec_get_allocated _ n v clientID Hv')).
  rewrite Hl. cbn [default from_option id]. step_pure. reflexivity.
Qed.

(** With no statement for the client yet, the shared code prepares all
    three and hands on the one from the whitelist vector, whatever [n]
    is. *)
Lemma with_client_statement_unprepared w n clientID client :
  healthy w -> same_process w ->
  (forall n', unprepared w n' clientID) ->
  Z.of_nat (List.length (GravityDB.client (db (sqlite w)))) < 2 ^ 31 ->
  exists w' h,
    carries w w' /\
    (forall n', prepared w' n' clientID (resolveGroups (db (sqlite w)) (ip_of client))) /\
    ready_stmt (sqlite w') h
      (SqlExists (view_of Whitelist) (resolveGroups (db (sqlite w)) (ip_of client))) /\
    forall k, with_client_statement n clientID client k w = k (Some h) w'.
Proof.
  intros Hh Hs Hu Hsize.
  set (w0 := memorize w).
  assert (C0 : carries w w0) by (apply memorize_carries; exact Hs).
  assert (Hh0 : healthy w0) by (apply C0; exact Hh).
  assert (Hv0 : vectors_allocated w0).
  { intros n'. unfold w0. rewrite memorize_vec_ptr.
    destruct (Hu n') as (v & -> & _). discriminate. }
  assert (Hsize0 : Z.of_nat (List.length (GravityDB.client (db (sqlite w0)))) < 2 ^ 31)
    by (unfold w0; rewrite memorize_sqlite; exact Hsize).
  destruct (gravityDB_prepare_client_statements_healthy w0 clientID client Hh0 Hv0 Hsize0)
    as (w1 & Hp & C1 & P1).
  replace (db (sqlite w0)) with (db (sqlite w)) in P1
    by (unfold w0; rewrite memorize_sqlite; reflexivity).
  destruct (P1 Whitelist) as (vW & hW & HvW & HlW & HrW).
  exists w1, hW. split; [exact (carries_trans _ _ _ C0 C1)|].
  split; [exact P1|]. split; [exact HrW|].
  intros k. unfold with_client_statement.
  rewrite (bind_Done _ _ _ _ _ (gravityDB_check_fork_settled w Hs)). fold w0.
  destruct (Hu n) as (v & Hv & Hl).
  assert (Hv' : vec_ptr n (vars w0) = Some v)
    by (unfold w0; rewrite memorize_vec_ptr; exact Hv).
  rewrite (bind_Done _ _ _ _ _ (vec_get_allocated _ n v clientID Hv')).
  rewrite Hl. step_pure. rewrite bind_assoc.
  rewrite (bind_Done _ _ _ _ _ Hp). step_pure.
  rewrite (bind_Done _ _ _ _ _ (vec_get_allocated _ Whitelist vW clientID HvW)).
  rewrite HlW. reflexivity.
Qed.


(** On the first call for a client, whichever vector [n] the predicate
    reads first, the lookup runs on the client's whitelist statement. *)
Lemma first_call_reads_whitelist w n domain listname clientID client :
  healthy w -> same_process w ->
  (forall n', unprepared w n' clientID) ->
  Z.of_nat (List.length (GravityDB.client (db (sqlite w)))) < 2 ^ 31 ->
  result (with_client_statement n clientID client
            (fun stmt => domain_in_list domain stmt listname)) w
  = Some (exact_match (db (sqlite w)) Whitelist
            (resolveGroups (db (sqlite w)) (ip_of client)) domain).
Proof.
  intros Hh Hs Hu Hsize.
  destruct (with_client_statement_unprepared w n clientID client Hh Hs Hu Hsize)
    as (w1 & h & C1 & _ & Hr & Hk).
  unfold result. rewrite Hk.
  pose proof C1 as (H1 & _ & _ & Hdb & _).
  destruct (domain_in_list_ready w1 Whitelist _ domain listname h (H1 Hh) Hr)
    as (w2 & Hl & _).
  rewrite Hl, Hdb. reflexivity.
Qed.

Lemma in_gravity_first_call w domain clientID client :
  healthy w -> same_process w ->
  (forall n', unprepared w n' clientID) ->
  Z.of_nat (List.length (GravityDB.client (db (sqlite w)))) < 2 ^ 31 ->
  result (in_gravity domain clientID client) w
  = Some (exact_match (db (sqlite w)) Whitelist
            (resolveGroups (db (sqlite w)) (ip_of client)) domain).
Proof. rewrite in_gravity_unfold. apply first_call_reads_whitelist. Qed.

Lemma in_blacklist_first_call w domain clientID client :
  healthy w -> same_process w ->
  (forall n', unprepared w n' clientID) ->
  Z.of_nat (List.length (GravityDB.client (db (sqlite w)))) < 2 ^ 31 ->
  result (in_blacklist domain clientID client) w
  = Some (exact_match (db (sqlite w)) Whitelist
            (resolveGroups (db (sqlite w)) (ip_of client)) domain).
Proof. rewrite in_blacklist_unfold. apply first_call_reads_whitelist. Qed.

(** Once the statements are prepared, each predicate looks up its own
    list. *)
Lemma later_call_reads_own_list w n domain listname clientID client groups :
  healthy w -> same_process w ->
  prepared w n clientID groups ->
  result (with_client_statement n clientID client
            (fun stmt => domain_in_list domain stmt listname)) w
  = Some (exact_match (db (sqlite w)) n groups domain).
Proof.
  intros Hh Hs Hp.
  destruct (with_client_statement_prepared w n clientID client groups Hs Hp)
    as (h & Hr & Hk).
  unfold result. rewrite Hk.
  destruct (domain_in_list_ready (memorize w) n groups domain listname h
              (memorize_healthy w Hh) Hr) as (w2 & Hl & _).
  rewrite Hl, memorize_sqlite. reflexivity.
Qed.

Lemma call_match_regex_logged domain clientID t w :
  call_match_regex domain clientID t w
  = Done (match_regex (sys w) domain clientID t)
         (log (EvMatchRegex domain clientID t (match_regex (sys w) domain clientID t)) w).
Proof. reflexivity. Qed.

(** The tail of [in_whitelist]: the exact lookup, and the regex
    subsystem only when that lookup came back false. *)
Lemma whitelist_tail w groups domain clientID h :
  healthy w ->
  ready_stmt (sqlite w) h (SqlExists (view_of Whitelist) groups) ->
  let exact := exact_match (db (sqlite w)) Whitelist groups domain in
  let m := match_regex (sys w) domain clientID REGEX_WHITELIST in
  exists w2,
    carries w w2 /\ vars w2 = vars w /\
    (exact <- domain_in_list domain (Some h) "whitelist" ;;
     if exact then ret true
     else
       m <- call_match_regex domain clientID REGEX_WHITELIST ;;
       ret (negb (m =? -1))) w
    = Done (exact || negb (m =? -1))
           (if exact then w2 else log (EvMatchRegex domain clientID REGEX_WHITELIST m) w2).
Proof.
  intros Hh Hr exact m.
  destruct (domain_in_list_ready w Whitelist groups domain "whitelist" h Hh Hr)
    as (w2 & Hl & C2 & V2).
  exists w2. split; [exact C2|]. split; [exact V2|].
  rewrite (bind_Done _ _ _ _ _ Hl). fold exact.
  destruct exact; [reflexivity|].
  rewrite (bind_Done _ _ _ _ _ (call_match_regex_logged _ _ _ w2)).
  destruct C2 as (_ & _ & -> & _). reflexivity.
Qed.

Lemma serving_carried d s clientID groups w w' :
  carries w w' -> (forall n, vec_ptr n (vars w') = vec_ptr n (vars w)) ->
  healthy w -> same_process w -> db (sqlite w) = d -> sys w = s ->
  (forall n, prepared w n clientID groups) ->
  serving d s clientID groups w'.
Proof.
  intros C V Hh Hs Hd Hy Hp. pose proof C as (C1 & C2 & C3 & C4 & _).
  unfold serving. split; [auto|]. split; [auto|].
  split; [congruence|]. split; [congruence|].
  intros n. apply (prepared_carried w w'); auto.
Qed.

Lemma serving_log d s clientID groups ev w :
  serving d s clientID groups w -> serving d s clientID groups (log ev w).
Proof.
  intros (Hh & Hs & Hd & Hy & Hp). unfold serving.
  split; [exact Hh|]. split; [exact Hs|]. split; [exact Hd|]. split; [exact Hy|].
  exact Hp.
Qed.

Lemma exact_match_no_groups d n domain : exact_match d n EmptyString domain = false.
Proof.
  unfold exact_match. destruct (view d (view_of n)) as [rows|]; [|reflexivity].
  simpl. induction rows as [|r rows IH]; [reflexivity|].
  simpl. rewrite andb_false_r. exact IH.
Qed.

(** ** [in_whitelist] *)

(** C7: on a healthy open store with no fork pending, for a client whose
    whitelist statement is prepared for the group list [groups], or who
    has no statement yet and resolves to [groups], [in_whitelist]
    returns true exactly when the domain matches a whitelist entry scoped
    to [groups] or [match_regex] finds a whitelist regex for the client;
    [match_regex] is called once when the exact lookup came back false
    and not at all when it came back true. *)
Theorem in_whitelist_exact_or_regex w domain clientID client groups :
  healthy w -> same_process w ->
  (prepared w Whitelist clientID groups \/
   ((forall n, unprepared w n clientID) /\
    Z.of_nat (List.length (GravityDB.client (db (sqlite w)))) < 2 ^ 31 /\
    groups = resolveGroups (db (sqlite w)) (ip_of client))) ->
  let exact := exact_match (db (sqlite w)) Whitelist groups domain in
  let m := match_regex (sys w) domain clientID REGEX_WHITELIST in
  exists b w',
    in_whitelist domain clientID client w = Done b w' /\
    (b = true <-> exact = true \/ m <> -1) /\
    regex_calls (trace (sqlite w'))
    = (regex_calls (trace (sqlite w)) + if exact then 0 else 1)%nat.
Proof.
  intros Hh Hs Hcase exact m.
  assert (Hb : forall b, b = (exact || negb (m =? -1)) ->
               (b = true <-> exact = true \/ m <> -1)).
  { intros b ->. rewrite orb_true_iff, negb_true_iff, Z.eqb_neq. reflexivity. }
  rewrite in_whitelist_unfold.
  assert (Hgo : exists w1 h,
            carries w w1 /\
            ready_stmt (sqlite w1) h (SqlExists (view_of Whitelist) groups) /\
            forall k, with_client_statement Whitelist clientID client k w = k (Some h) w1).
  { destruct Hcase as [Hp | (Hu & Hsize & ->)].
    - destruct (with_client_statement_prepared w Whitelist clientID client groups Hs Hp)
        as (h & Hr & Hk).
      exists (memorize w), h. split; [apply memorize_carries; exact Hs|]. auto.
    - destruct (with_client_statement_unprepared w Whitelist clientID client Hh Hs Hu Hsize)
        as (w1 & h & C1 & _ & Hr & Hk).
      exists w1, h. auto. }
  destruct Hgo as (w1 & h & C1 & Hr & Hk). rewrite Hk.
  pose proof C1 as (H1 & _ & Hsys & Hdb & Hregex & _).
  destruct (whitelist_tail w1 groups domain clientID h (H1 Hh) Hr)
    as (w2 & C2 & _ & Htail).
  rewrite Hdb, Hsys in Htail. fold exact m in Htail.
  eexists _, _. split; [exact Htail|]. split; [apply Hb; reflexivity|].
  destruct C2 as (_ & _ & _ & _ & Hregex2 & _).
  destruct exact; simpl; rewrite Hregex2, Hregex; lia.
Qed.


Lemma opened_is_healthy : healthy opened.
Proof. repeat split; reflexivity. Qed.

Lemma opened_same_process : same_process opened.
Proof. left. reflexivity. Qed.

Lemma opened_unprepared n : unprepared opened n 0.
Proof. destruct n; eexists; split; reflexivity. Qed.

Lemma in_whitelist_exact_or_regex_witness :
  healthy opened /\ same_process opened /\
  exists b w',
    in_whitelist "good.example" 0 stranger opened = Done b w' /\
    (b = true <->
     exact_match (db (sqlite opened)) Whitelist "0" "good.example" = true \/
     match_regex (sys opened) "good.example" 0 REGEX_WHITELIST <> -1) /\
    regex_calls (trace (sqlite w'))
    = (regex_calls (trace (sqlite opened))
       + if exact_match (db (sqlite opened)) Whitelist "0" "good.example"
         then 0 else 1)%nat.
Proof.
  split; [exact opened_is_healthy|]. split; [exact opened_same_process|].
  apply (in_whitelist_exact_or_regex opened "good.example" 0%nat stranger "0"
           opened_is_healthy opened_same_process).
  right. split; [exact opened_unprepared|]. split; reflexivity.
Defined.

(** ** A client without groups *)

(** One call for a client that resolves to no group at all: the exact
    lists give nothing, and afterwards the client's statements are
    prepared for the empty group list. *)
Lemma ask_without_groups d s clientID client p domain w :
  resolveGroups d (ip_of client) = EmptyString ->
  Z.of_nat (List.length (GravityDB.client d)) < 2 ^ 31 ->
  unserved d s clientID w \/ serving d s clientID EmptyString w ->
  exists w',
    ask p domain clientID client w = Done (regex_only s clientID (p, domain)) w' /\
    serving d s clientID EmptyString w'.
Proof.
  intros HG Hsize Hw.
  set (n := match p with
            | InWhitelist => Whitelist | InGravity => Gravity | InBlacklist => Blacklist
            end).
  (* the statement the call ends up with, and the world it is used in *)
  assert (Hgo : exists w1 h m,
            serving d s clientID EmptyString w1 /\
            ready_stmt (sqlite w1) h (SqlExists (view_of m) EmptyString) /\
            forall k, with_client_statement n clientID client k w = k (Some h) w1).
  { destruct Hw as [(Hh & Hs & Hd & Hy & Hu) | (Hh & Hs & Hd & Hy & Hp)].
    - subst d.
      destruct (with_client_statement_unprepared w n clientID client Hh Hs Hu Hsize)
        as (w1 & h & C1 & P1 & Hr & Hk).
      rewrite HG in P1, Hr. exists w1, h, Whitelist.
      split; [|split; [exact Hr | exact Hk]].
      pose proof C1 as (C11 & C12 & C13 & C14 & _).
      unfold serving. split; [auto|]. split; [auto|]. split; [auto|].
      split; [congruence | exact P1].
    - destruct (with_client_statement_prepared w n clientID client _ Hs (Hp n))
        as (h & Hr & Hk).
      exists (memorize w), h, n. split; [|split; [exact Hr | exact Hk]].
      apply (serving_carried d s clientID EmptyString w); auto.
      + apply memorize_carries. exact Hs.
      + intros n'. apply memorize_vec_ptr. }
  destruct Hgo as (w1 & h & m & Hserv & Hr & Hk).
  pose proof Hserv as (Hh1 & Hs1 & Hd1 & Hy1 & Hp1).
  assert (Hplain : forall listname, exists w',
            domain_in_list domain (Some h) listname w1 = Done false w' /\
            serving d s clientID EmptyString w').
  { intros listname.
    destruct (domain_in_list_ready w1 m EmptyString domain listname h Hh1 Hr)
      as (w2 & Hl & C2 & V2).
    rewrite exact_match_no_groups in Hl. exists w2. split; [exact Hl|].
    apply (serving_carried d s clientID EmptyString w1); auto.
    intros n'. rewrite V2. reflexivity. }
  destruct p; simpl ask; simpl regex_only.
  - rewrite in_whitelist_unfold. fold n. rewrite Hk.
    destruct (Hplain "whitelist") as (w2 & Hl & Hserv2).
    rewrite (bind_Done _ _ _ _ _ Hl). cbv iota.
    rewrite (bind_Done _ _ _ _ _ (call_match_regex_logged _ _ _ w2)).
    destruct Hserv2 as (A & B & C & E & F). rewrite E.
    eexists. split; [reflexivity|]. apply serving_log.
    unfold serving. auto.
  - rewrite in_gravity_unfold. fold n. rewrite Hk. apply Hplain.
  - rewrite in_blacklist_unfold. fold n. rewrite Hk. apply Hplain.
Qed.

Lemma ask_all_without_groups d s clientID client calls w :
  resolveGroups d (ip_of client) = EmptyString ->
  Z.of_nat (List.length (GravityDB.client d)) < 2 ^ 31 ->
  unserved d s clientID w \/ serving d s clientID EmptyString w ->
  result (ask_all calls clientID client) w = Some (map (regex_only s clientID) calls).
Proof.
  intros HG Hsize. revert w. induction calls as [|[p domain] calls IH]; intros w Hw.
  - reflexivity.
  - destruct (ask_without_groups d s clientID client p domain w HG Hsize Hw)
      as (w1 & Hask & Hserv).
    specialize (IH w1 (or_intror Hserv)). unfold result in *. simpl ask_all.
    rewrite (bind_Done _ _ _ _ _ Hask).
    unfold bind at 1.
    destruct (ask_all calls clientID client w1) as [bs w2|]; [|discriminate].
    inversion IH; subst. reflexivity.
Qed.

(** C8: on a healthy open store, a client whose address matches no
    record of the client table resolves to the group list ["0"].  A
    client that matches a record without any group resolves to the empty
    list, and then, whatever the lists hold and however many calls are
    made, [in_gravity] and [in_blacklist] return false and
    [in_whitelist] returns what the regex subsystem alone says. *)
Theorem client_groups_and_exact_lists w clientID client :
  healthy w ->
  Z.of_nat (List.length (GravityDB.client (db (sqlite w)))) < 2 ^ 31 ->
  (matching_clients (db (sqlite w)) (ip_of client) = [] ->
     result (get_client_groupids client) w = Some (true, Some "0")) /\
  (forall c rest,
     matching_clients (db (sqlite w)) (ip_of client) = c :: rest ->
     filter (fun cg => cg.1 = c.1) (client_by_group (db (sqlite w))) = [] ->
     result (get_client_groupids client) w = Some (true, Some EmptyString) /\
     (same_process w -> (forall n, unprepared w n clientID) ->
      forall calls,
        result (ask_all calls clientID client) w
        = Some (map (regex_only (sys w) clientID) calls))).
Proof.
  intros Hh Hsize.
  destruct (get_client_groupids_healthy w client Hh Hsize) as (w1 & Hg & _).
  unfold result. rewrite Hg. unfold resolveGroups. split.
  - intros ->. reflexivity.
  - intros c rest Hm Hnone. rewrite Hm, Hnone. split; [reflexivity|].
    intros Hs Hu calls.
    apply (ask_all_without_groups (db (sqlite w)) (sys w) clientID client calls w).
    + unfold resolveGroups. rewrite Hm, Hnone. reflexivity.
    + exact Hsize.
    + left. unfold unserved. auto.
Qed.


Lemma client_groups_and_exact_lists_witness :
  healthy opened /\
  Z.of_nat (List.length (GravityDB.client (db (sqlite opened)))) < 2 ^ 31 /\
  result (get_client_groupids stranger) opened = Some (true, Some "0") /\
  result (get_client_groupids groupless) opened = Some (true, Some EmptyString) /\
  result (ask_all [(InGravity, "ads.example"); (InBlacklist, "bad.example");
                   (InWhitelist, "good.example"); (InGravity, "ads.example")]
                  1 groupless) opened
  = Some [false; false; false; false].
Proof.
  assert (Hsize : Z.of_nat (List.length (GravityDB.client (db (sqlite opened)))) < 2 ^ 31)
    by reflexivity.
  split; [exact opened_is_healthy|]. split; [exact Hsize|].
  split.
  - apply (client_groups_and_exact_lists opened 0%nat stranger opened_is_healthy Hsize).
    reflexivity.
  - destruct (client_groups_and_exact_lists opened 1%nat groupless opened_is_healthy Hsize)
      as (_ & H).
    destruct (H (2, "10.0.0.2") [] eq_refl eq_refl) as (Hg & Hall).
    split; [exact Hg|].
    apply (Hall opened_same_process).
    intros n. destruct n; eexists; split; reflexivity.
Defined.

End GravityDBFacts.
